(** * Data transfer interfaces (src/core/xfer.c)

    A shallow embedding of gPXE's data transfer interface core and the
    properties its specification states about it.

    The C code works on a heap of interface handles that point at each
    other, calls through tables of function pointers, and hands I/O
    buffers over to the functions it calls.  The embedding therefore
    threads an explicit machine state through every function: a store of
    interface handles, the reference counters, byte memory, the live I/O
    buffers and the allocator's budget.  A function of the C file is a
    computation in the monad [M]: it takes the state and either returns
    a result and the new state, or has no defined behaviour ([None]: a
    dangling pointer was dereferenced, a buffer was released twice, a
    copy ran over the end of a block). *)

From Stdlib Require Import ZArith NArith List.
From stdpp Require Import base option list gmap strings.

Local Open Scope Z_scope.

(** ** Data model *)

(** Addresses of objects: interface handles, reference counters, memory
    blocks. *)
Definition addr : Type := positive.

(** [size_t] values (positions and lengths). *)
Definition size_t : Type := N.

(** A [void *] into byte memory: the block it points into and the offset
    inside that block. *)
Definition ptr : Type := addr * N.

(** The [va_list] of a redirection: the remaining arguments, whose shape
    depends on the location type and which this layer never inspects. *)
Definition va_list : Type := list Z.

(** [struct interface]: the destination link and the optional reference
    counter of the object that contains the interface. *)
Record interface : Type := {
  dest : addr;
  refcnt : option addr
}.

(** The value of an [op] field: the address of an operations table, which
    is either [&null_xfer_ops] or the table of one of the stages linked
    into the image. *)
Inductive ops_ptr : Type :=
| null_xfer_ops_addr
| stage_ops_addr (n : positive).

(** [struct xfer_interface].  The [intf] member is the first member, so
    the address of a handle and the address of its [intf] coincide
    ([intf_to_xfer] is the identity on addresses). *)
Record xfer_interface : Type := {
  intf : interface;
  op : ops_ptr
}.

(** [struct io_buffer]: the four pointers into the buffer's storage. *)
Record io_buffer : Type := {
  head : ptr;
  data : ptr;
  tail : ptr;
  end_ : ptr
}.

(** What a stage's own operation may record about a call it received.
    Nothing in xfer.c reads or writes the record of these events; it
    stands for the part of the machine that only the stages touch. *)
Inductive event : Type :=
| ev_close (xfer : addr) (rc : Z)
| ev_vredirect (xfer : addr) (type : Z) (args : va_list)
| ev_seek (xfer : addr) (pos : size_t)
| ev_deliver (xfer : addr) (iobuf : addr) (bytes : list Byte.byte)
| ev_deliver_raw (xfer : addr) (bytes : list Byte.byte) (len : size_t).

(** The machine state. *)
Record state : Type := {
  xfers : gmap addr xfer_interface;
  refcnts : gmap addr Z;
  memory : gmap addr (list Byte.byte);
  iobufs : gmap addr io_buffer;
  heap_free : N;
  trace : list event
}.

Definition set_xfers (f : gmap addr xfer_interface → gmap addr xfer_interface)
    (s : state) : state :=
  {| xfers := f (xfers s); refcnts := refcnts s; memory := memory s;
     iobufs := iobufs s; heap_free := heap_free s; trace := trace s |}.

Definition set_refcnts (f : gmap addr Z → gmap addr Z) (s : state) : state :=
  {| xfers := xfers s; refcnts := f (refcnts s); memory := memory s;
     iobufs := iobufs s; heap_free := heap_free s; trace := trace s |}.

Definition set_memory (f : gmap addr (list Byte.byte) → gmap addr (list Byte.byte))
    (s : state) : state :=
  {| xfers := xfers s; refcnts := refcnts s; memory := f (memory s);
     iobufs := iobufs s; heap_free := heap_free s; trace := trace s |}.

Definition set_iobufs (f : gmap addr io_buffer → gmap addr io_buffer)
    (s : state) : state :=
  {| xfers := xfers s; refcnts := refcnts s; memory := memory s;
     iobufs := f (iobufs s); heap_free := heap_free s; trace := trace s |}.

Definition set_heap_free (f : N → N) (s : state) : state :=
  {| xfers := xfers s; refcnts := refcnts s; memory := memory s;
     iobufs := iobufs s; heap_free := f (heap_free s); trace := trace s |}.

Definition set_trace (f : list event → list event) (s : state) : state :=
  {| xfers := xfers s; refcnts := refcnts s; memory := memory s;
     iobufs := iobufs s; heap_free := heap_free s; trace := f (trace s) |}.

(** ** The monad of C computations *)

Definition M (A : Type) : Type := state → option (A * state).

#[global] Instance M_ret : MRet M := λ A a s, Some (a, s).

#[global] Instance M_bind : MBind M := λ A B f m s,
  match m s with
  | Some (a, s') => f a s'
  | None => None
  end.

(** Undefined behaviour. *)
Definition undef {A : Type} : M A := λ _, None.

(** Read the state, and update it. *)
Definition gets {A : Type} (f : state → A) : M A := λ s, Some (f s, s).
Definition modify (f : state → state) : M unit := λ s, Some (tt, f s).

(** Dereference a pointer held in an optional lookup. *)
Definition some_or_undef {A : Type} (o : option A) : M A :=
  match o with
  | Some a => mret a
  | None => undef
  end.

(** [*xfer]: the handle stored at an address. *)
Definition deref (xfer : addr) : M xfer_interface :=
  x ← gets (λ s, xfers s !! xfer); some_or_undef x.

(** [*iobuf]: the descriptor of a live I/O buffer. *)
Definition deref_iob (iobuf : addr) : M io_buffer :=
  b ← gets (λ s, iobufs s !! iobuf); some_or_undef b.

(** ** What xfer.c takes from its headers

    The inline functions and macros of gpxe/xfer.h, gpxe/interface.h,
    gpxe/refcnt.h and gpxe/iobuf.h that xfer.c calls. *)

(** The address of the null data transfer interface, [&null_xfer]. *)
Definition null_xfer_addr : addr := 1%positive.

(** Modelled from the spec: [xfer_dest] (gpxe/xfer.h), the spec's
    [getPartner]: returns the handle's current partner, with no side
    effect. *)
Definition xfer_dest (xfer : addr) : M addr :=
  x ← deref xfer; mret (dest (intf x)).

(** Modelled from the spec: [ref_put] (gpxe/refcnt.h), the release of one
    shared-ownership interest: the counter is decremented, and an absent
    counter is left alone.  What happens to an object whose counter runs
    out is outside this core. *)
Definition ref_put (r : option addr) : M unit :=
  match r with
  | None => mret tt
  | Some c =>
      n ← gets (λ s, refcnts s !! c);
      n ← some_or_undef n;
      modify (set_refcnts <[c := n - 1]>)
  end.

(** Modelled from the spec: [xfer_unplug] (gpxe/xfer.h), the spec's
    [unplug]: sets the handle's partner to the Null Sentinel, releasing
    the interest previously held in the old partner. *)
Definition xfer_unplug (xfer : addr) : M unit :=
  x ← deref xfer;
  old ← deref (dest (intf x));
  ref_put (refcnt (intf old));;
  modify (set_xfers
    <[xfer := {| intf := {| dest := null_xfer_addr; refcnt := refcnt (intf x) |};
                 op := op x |}]>).

(** A block address that is in use neither as memory nor as a buffer. *)
Definition fresh_block (s : state) : addr :=
  fresh (dom (memory s) ∪ dom (iobufs s)).

(** Modelled from the spec: [alloc_iob] (gpxe/iobuf.h), the spec's opaque
    capability [allocate(len) -> buffer].  The heap has [heap_free] bytes
    left; a request that does not fit fails and returns [NULL] ([None])
    with the state as it was.  A new buffer is empty: [head], [data] and
    [tail] point at the start of its storage and [end_] [len] bytes
    further. *)
Definition alloc_iob (len : size_t) : M (option addr) := λ s,
  if decide (len ≤ heap_free s)%N then
    let b := fresh_block s in
    Some (Some b,
          set_heap_free (λ n, n - len)%N
            (set_iobufs <[b := {| head := (b, 0%N); data := (b, 0%N);
                                  tail := (b, 0%N); end_ := (b, len) |}]>
               (set_memory <[b := replicate (N.to_nat len) Byte.x00]> s)))
  else Some (None, s).

(** Modelled from the spec: [free_iob] (gpxe/iobuf.h), the spec's
    [release(buffer)]: the descriptor and its storage cease to exist and
    the bytes return to the heap.  Releasing a buffer that is not live has
    no defined behaviour. *)
Definition free_iob (iobuf : addr) : M unit :=
  b ← deref_iob iobuf;
  blk ← gets (λ s, memory s !! (head b).1);
  blk ← some_or_undef blk;
  modify (λ s, set_heap_free (λ n, n + N.of_nat (length blk))%N
                 (set_iobufs (delete iobuf)
                    (set_memory (delete (head b).1) s))).

(** Modelled from the spec: [iob_len] (gpxe/iobuf.h): the length of the
    data in the buffer, [tail - data]; a buffer keeps [data] at or before
    [tail]. *)
Definition iob_len (b : io_buffer) : size_t := ((tail b).2 - (data b).2)%N.

(** Modelled from the spec: [iob_put] (gpxe/iobuf.h): adds [len] bytes at
    the end of the buffer's data and returns the old [tail], where they
    start. *)
Definition iob_put (iobuf : addr) (len : size_t) : M ptr :=
  b ← deref_iob iobuf;
  modify (set_iobufs
    <[iobuf := {| head := head b; data := data b;
                  tail := ((tail b).1, ((tail b).2 + len)%N);
                  end_ := end_ b |}]>);;
  mret (tail b).

(** Reading [len] bytes at a pointer, and writing bytes at a pointer; both
    must stay inside the block. *)
Definition load_bytes (p : ptr) (len : size_t) : M (list Byte.byte) :=
  blk ← gets (λ s, memory s !! p.1);
  blk ← some_or_undef blk;
  if decide (N.to_nat p.2 + N.to_nat len ≤ length blk)%nat
  then mret (take (N.to_nat len) (drop (N.to_nat p.2) blk))
  else undef.

Definition store_bytes (p : ptr) (bs : list Byte.byte) : M unit :=
  blk ← gets (λ s, memory s !! p.1);
  blk ← some_or_undef blk;
  if decide (N.to_nat p.2 + length bs ≤ length blk)%nat
  then modify (set_memory
         <[p.1 := take (N.to_nat p.2) blk ++ bs
                  ++ drop (N.to_nat p.2 + length bs) blk]>)
  else undef.

(** [memcpy] (string.h). *)
Definition memcpy (dst src : ptr) (len : size_t) : M ptr :=
  bs ← load_bytes src len;
  store_bytes dst bs;;
  mret dst.

(** The bytes an I/O buffer holds, from [data] to [tail], in a state. *)
Definition iob_bytes (iobuf : addr) (s : state) : option (list Byte.byte) :=
  match deref_iob iobuf s with
  | Some (b, _) =>
      match load_bytes (data b) (iob_len b) s with
      | Some (bs, _) => Some bs
      | None => None
      end
  | None => None
  end.

(** [va_start] and [va_end] (stdarg.h): the [va_list] of a variadic call
    holds the trailing arguments of that call, in order. *)
Definition va_start (trailing : list Z) : va_list := trailing.
Definition va_end (args : va_list) : M unit := mret tt.

(** Modelled from the spec: [DBGC] (compiler.h), the debug message of a
    build with debugging enabled; it carries no correctness requirement
    and the default build compiles it out. *)
Definition DBGC (xfer : addr) (len : size_t) (when : string) : M unit :=
  mret tt.

(** ** Operations tables *)

(** [struct xfer_interface_operations]: the five function pointers.  The
    fields keep their C names inside the module [Ops], next to the
    functions [close], [seek], ... of xfer.c. *)
Module Ops.
Record xfer_interface_operations : Type := {
  close : addr → Z → M unit;
  vredirect : addr → Z → va_list → M Z;
  seek : addr → size_t → M Z;
  deliver : addr → addr → M Z;
  deliver_raw : addr → ptr → size_t → M Z
}.
End Ops.

(** The rest of the image xfer.c is linked into: the value of the
    [ENOMEM] constant (errno.h) and the operations tables of the stages.
    An operation of a stage is any function on the machine state, so
    whatever a stage does when it is called, calling back into this layer
    included, is covered as the state change it amounts to.  Every
    property below holds for every image. *)
Class Image : Type := {
  ENOMEM : Z;
  stage_ops : positive → Ops.xfer_interface_operations
}.

(** ** xfer.c *)

Section xfer.
Context {image : Image}.

(** *** Helper methods *)

(** [ignore_close]: nothing to do. *)
Definition ignore_close (xfer : addr) (rc : Z) : M unit :=
  mret tt.

(** [ignore_vredirect]. *)
Definition ignore_vredirect (xfer : addr) (type : Z) (args : va_list) : M Z :=
  mret 0.

(** [ignore_seek]. *)
Definition ignore_seek (xfer : addr) (pos : size_t) : M Z :=
  mret 0.

(** [ignore_deliver_raw]: a debug message that tells a delivery before
    connection from one after termination, then success. *)
Definition ignore_deliver_raw (xfer : addr) (data : ptr) (len : size_t) : M Z :=
  DBGC xfer len
    (if decide (xfer = null_xfer_addr)
     then "before connection" else "after termination");;
  mret 0.

(** The [deliver_raw] member of the table at an address.  [null_xfer_ops]
    holds [deliver_as_raw], which itself calls through the [deliver_raw]
    member of a table; this member is therefore resolved first, and
    [ops_deliver_raw] below shows that it is the member of the whole
    table. *)
Definition deliver_raw_at (p : ops_ptr) : addr → ptr → size_t → M Z :=
  match p with
  | null_xfer_ops_addr => ignore_deliver_raw
  | stage_ops_addr n => Ops.deliver_raw (stage_ops n)
  end.

(** [deliver_as_raw]: the [deliver] method of an interface that prefers
    raw data. *)
Definition deliver_as_raw (xfer : addr) (iobuf : addr) : M Z :=
  x ← deref xfer;
  b ← deref_iob iobuf;
  rc ← deliver_raw_at (op x) xfer (data b) (iob_len b);
  free_iob iobuf;;
  mret rc.

(** [null_xfer_ops]: the null data transfer interface operations. *)
Definition null_xfer_ops : Ops.xfer_interface_operations := {|
  Ops.close := ignore_close;
  Ops.vredirect := ignore_vredirect;
  Ops.seek := ignore_seek;
  Ops.deliver := deliver_as_raw;
  Ops.deliver_raw := ignore_deliver_raw
|}.

(** [*p] for the address of an operations table. *)
Definition ops (p : ops_ptr) : Ops.xfer_interface_operations :=
  match p with
  | null_xfer_ops_addr => null_xfer_ops
  | stage_ops_addr n => stage_ops n
  end.

(** [deliver_as_iobuf]: the [deliver_raw] method of an interface that
    prefers I/O buffers. *)
Definition deliver_as_iobuf (xfer : addr) (data : ptr) (len : size_t) : M Z :=
  iobuf ← alloc_iob len;
  match iobuf with
  | None => mret (- ENOMEM)
  | Some iobuf =>
      dst ← iob_put iobuf len;
      memcpy dst data len;;
      x ← deref xfer;
      Ops.deliver (ops (op x)) xfer iobuf
  end.

(** [null_xfer]: the null data transfer interface, as its initialiser
    sets it up. *)
Definition null_xfer : xfer_interface := {|
  intf := {| dest := null_xfer_addr; refcnt := None |};
  op := null_xfer_ops_addr
|}.

(** *** The dispatch functions *)

(** [close]: close data transfer interface. *)
Definition close (xfer : addr) (rc : Z) : M unit :=
  dest ← xfer_dest xfer;
  d ← deref dest;
  Ops.close (ops (op d)) dest rc;;
  xfer_unplug xfer.

(** [seek]: seek to position. *)
Definition seek (xfer : addr) (pos : size_t) : M Z :=
  dest ← xfer_dest xfer;
  d ← deref dest;
  Ops.seek (ops (op d)) dest pos.

(** [vredirect]: send redirection event. *)
Definition vredirect (xfer : addr) (type : Z) (args : va_list) : M Z :=
  dest ← xfer_dest xfer;
  d ← deref dest;
  Ops.vredirect (ops (op d)) dest type args.

(** [redirect]: send redirection event, the trailing arguments given one
    by one. *)
Definition redirect (xfer : addr) (type : Z) (trailing : list Z) : M Z :=
  let args := va_start trailing in
  rc ← vredirect xfer type args;
  va_end args;;
  mret rc.

(** [deliver]: deliver datagram. *)
Definition deliver (xfer : addr) (iobuf : addr) : M Z :=
  dest ← xfer_dest xfer;
  d ← deref dest;
  Ops.deliver (ops (op d)) dest iobuf.

(** [deliver_raw]: deliver datagram as raw data. *)
Definition deliver_raw (xfer : addr) (data : ptr) (len : size_t) : M Z :=
  dest ← xfer_dest xfer;
  d ← deref dest;
  Ops.deliver_raw (ops (op d)) dest data len.

End xfer.

(** The first half of [deliver_as_iobuf] once the buffer is allocated:
    [memcpy ( iob_put ( iobuf, len ), data, len )]. *)
Definition iob_fill (iobuf : addr) (data : ptr) (len : size_t) : M unit :=
  dst ← iob_put iobuf len;
  memcpy dst data len;;
  mret tt.

(** A handle can be unplugged in a state: it exists, its partner exists,
    and the partner's counter, when it has one, exists. *)
Definition can_unplug (xfer : addr) (s : state) : bool :=
  match xfers s !! xfer with
  | Some x =>
      match xfers s !! dest (intf x) with
      | Some old =>
          match refcnt (intf old) with
          | Some c => bool_decide (is_Some (refcnts s !! c))
          | None => true
          end
      | None => false
      end
  | None => false
  end.

(** An I/O buffer can be released in a state: it is live and so is its
    storage. *)
Definition can_free (iobuf : addr) (s : state) : bool :=
  match iobufs s !! iobuf with
  | Some b => bool_decide (is_Some (memory s !! (head b).1))
  | None => false
  end.

(** ** An image to run the code in

    Two kinds of stage.  A recording stage notes every call it receives
    and answers with a status of its own.  A hanging-up stage does the
    same, but first unplugs the handle of its peer, the very handle
    through which the call is arriving. *)

Definition note (e : event) : M unit :=
  modify (set_trace (λ t, t ++ [e])).

Definition rec_close (xfer : addr) (rc : Z) : M unit :=
  note (ev_close xfer rc).

Definition rec_vredirect (xfer : addr) (type : Z) (args : va_list) : M Z :=
  note (ev_vredirect xfer type args);; mret 23.

Definition rec_seek (xfer : addr) (pos : size_t) : M Z :=
  note (ev_seek xfer pos);; mret 17.

Definition rec_deliver (xfer : addr) (iobuf : addr) : M Z :=
  b ← deref_iob iobuf;
  bs ← load_bytes (data b) (iob_len b);
  note (ev_deliver xfer iobuf bs);;
  free_iob iobuf;;
  mret 31.

Definition rec_deliver_raw (xfer : addr) (data : ptr) (len : size_t) : M Z :=
  bs ← load_bytes data len;
  note (ev_deliver_raw xfer bs len);;
  mret (-5).

Definition recorder_ops : Ops.xfer_interface_operations := {|
  Ops.close := rec_close;
  Ops.vredirect := rec_vredirect;
  Ops.seek := rec_seek;
  Ops.deliver := rec_deliver;
  Ops.deliver_raw := rec_deliver_raw
|}.

Definition hangup (xfer : addr) : M unit :=
  peer ← xfer_dest xfer; xfer_unplug peer.

Definition hangup_ops : Ops.xfer_interface_operations := {|
  Ops.close := λ xfer rc, hangup xfer;; rec_close xfer rc;
  Ops.vredirect := λ xfer type args, hangup xfer;; rec_vredirect xfer type args;
  Ops.seek := λ xfer pos, hangup xfer;; rec_seek xfer pos;
  Ops.deliver := λ xfer iobuf, hangup xfer;; rec_deliver xfer iobuf;
  Ops.deliver_raw := λ xfer data len, hangup xfer;; rec_deliver_raw xfer data len
|}.

Definition demo_image : Image := {|
  ENOMEM := 12;
  stage_ops := λ n, if decide (n = 2%positive) then hangup_ops else recorder_ops
|}.

(** The handles of the demonstration: [hA] and [hB] are connected to each
    other, [hA] with hanging-up operations of its own and [hB] a recording
    stage; [hC] is connected to the hanging-up stage [hD]; [hU] is
    unplugged. *)
Definition hA : addr := 2%positive.
Definition hB : addr := 3%positive.
Definition hC : addr := 4%positive.
Definition hD : addr := 5%positive.
Definition hU : addr := 6%positive.

Definition hello : list Byte.byte :=
  [Byte.x68; Byte.x65; Byte.x6c; Byte.x6c; Byte.x6f].

(** The I/O buffer at block 21 holds [hello] after four bytes of
    headroom. *)
Definition demo_state : state := {|
  xfers := list_to_map
    [ (null_xfer_addr, null_xfer);
      (hA, {| intf := {| dest := hB; refcnt := Some 10%positive |};
              op := stage_ops_addr 2 |});
      (hB, {| intf := {| dest := hA; refcnt := Some 11%positive |};
              op := stage_ops_addr 1 |});
      (hC, {| intf := {| dest := hD; refcnt := Some 12%positive |};
              op := stage_ops_addr 1 |});
      (hD, {| intf := {| dest := hC; refcnt := Some 13%positive |};
              op := stage_ops_addr 2 |});
      (hU, {| intf := {| dest := null_xfer_addr; refcnt := None |};
              op := stage_ops_addr 1 |}) ];
  refcnts := list_to_map
    [ (10%positive, 1); (11%positive, 1); (12%positive, 1); (13%positive, 1) ];
  memory := list_to_map
    [ (20%positive, hello);
      (21%positive, replicate 4 Byte.x00 ++ hello ++ replicate 3 Byte.x00) ];
  iobufs := list_to_map
    [ (21%positive, {| head := (21%positive, 0%N); data := (21%positive, 4%N);
                       tail := (21%positive, 9%N); end_ := (21%positive, 12%N) |}) ];
  heap_free := 64;
  trace := []
|}.

(** The same machine with its heap exhausted. *)
Definition demo_state_full : state := set_heap_free (λ _, 0%N) demo_state.

(** ** An image whose stages install the adaptors

    The stages of this image are built on those of [demo_image].  Stage 3
    handles raw data only and installs [deliver_as_raw] as its [deliver]
    method; stage 4 handles I/O buffers only and installs
    [deliver_as_iobuf] as its [deliver_raw] method.  Their own methods are
    the recording ones. *)

Definition raw_native_ops : Ops.xfer_interface_operations := {|
  Ops.close := rec_close;
  Ops.vredirect := rec_vredirect;
  Ops.seek := rec_seek;
  Ops.deliver := deliver_as_raw (image := demo_image);
  Ops.deliver_raw := rec_deliver_raw
|}.

Definition iobuf_native_ops : Ops.xfer_interface_operations := {|
  Ops.close := rec_close;
  Ops.vredirect := rec_vredirect;
  Ops.seek := rec_seek;
  Ops.deliver := rec_deliver;
  Ops.deliver_raw := deliver_as_iobuf (image := demo_image)
|}.

Definition adaptor_image : Image := {|
  ENOMEM := 12;
  stage_ops := λ n,
    if decide (n = 3%positive) then raw_native_ops
    else if decide (n = 4%positive) then iobuf_native_ops
    else stage_ops (Image := demo_image) n
|}.

(** [hP] is connected to the raw-data stage [hR], [hQ] to the I/O buffer
    stage [hI]. *)
Definition hP : addr := 7%positive.
Definition hR : addr := 8%positive.
Definition hQ : addr := 9%positive.
Definition hI : addr := 10%positive.

Definition adaptor_state : state :=
  set_xfers (λ m,
    <[hP := {| intf := {| dest := hR; refcnt := None |}; op := stage_ops_addr 1 |}]>
    (<[hR := {| intf := {| dest := hP; refcnt := None |}; op := stage_ops_addr 3 |}]>
    (<[hQ := {| intf := {| dest := hI; refcnt := None |}; op := stage_ops_addr 1 |}]>
    (<[hI := {| intf := {| dest := hQ; refcnt := None |}; op := stage_ops_addr 4 |}]>
       m))))
    demo_state.

Definition adaptor_state_full : state := set_heap_free (λ _, 0%N) adaptor_state.

(** The demonstration machine with [hA] a recording stage like [hB], so
    that the two ends of the connection only note what they are told. *)
Definition duplex_state : state :=
  set_xfers
    <[hA := {| intf := {| dest := hB; refcnt := Some 10%positive |};
               op := stage_ops_addr 1 |}]>
    demo_state.

(** The demonstration machine after [hB] has switched to the null
    operations table, while [hA] is still plugged into it. *)
Definition nullified_state : state :=
  set_xfers
    <[hB := {| intf := {| dest := hA; refcnt := Some 11%positive |};
               op := null_xfer_ops_addr |}]>
    demo_state.

(** ** Running computations *)

Lemma bind_run {A B : Type} (m : M A) (f : A → M B) (s : state) :
  (m ≫= f) s = match m s with Some (a, s') => f a s' | None => None end.
Proof. reflexivity. Qed.

Lemma ret_run {A : Type} (a : A) (s : state) : mret (M := M) a s = Some (a, s).
Proof. reflexivity. Qed.

Lemma deref_run (xfer : addr) (s : state) :
  deref xfer s = match xfers s !! xfer with Some x => Some (x, s) | None => None end.
Proof. unfold deref. rewrite bind_run. simpl. destruct (xfers s !! xfer); reflexivity. Qed.

Lemma deref_iob_run (iobuf : addr) (s : state) :
  deref_iob iobuf s
  = match iobufs s !! iobuf with Some b => Some (b, s) | None => None end.
Proof.
  unfold deref_iob. rewrite bind_run. simpl. destruct (iobufs s !! iobuf); reflexivity.
Qed.

Lemma xfer_dest_run (xfer : addr) (s : state) :
  xfer_dest xfer s
  = match xfers s !! xfer with Some x => Some (dest (intf x), s) | None => None end.
Proof.
  unfold xfer_dest. rewrite bind_run, deref_run.
  destruct (xfers s !! xfer); reflexivity.
Qed.

(** Rewriting with the lookups a proof has at hand. *)
Ltac step :=
  repeat first
    [ rewrite bind_run
    | rewrite xfer_dest_run
    | rewrite deref_run
    | rewrite deref_iob_run
    | rewrite ret_run
    | match goal with
      | E : ?o = Some _ |- context [match ?o with _ => _ end] => rewrite E
      | E : ?o = None |- context [match ?o with _ => _ end] => rewrite E
      end ].

(** *** Reference counters and unplugging *)

Lemma ref_put_run (r : option addr) (s : state) :
  ref_put r s
  = match r with
    | None => Some (tt, s)
    | Some c =>
        match refcnts s !! c with
        | Some n => Some (tt, set_refcnts <[c := n - 1]> s)
        | None => None
        end
    end.
Proof.
  destruct r as [c|]; [|reflexivity].
  unfold ref_put. rewrite !bind_run. simpl.
  destruct (refcnts s !! c); reflexivity.
Qed.

(** Releasing an interest touches the counters only. *)
Lemma ref_put_frame (r : option addr) (s s' : state) :
  ref_put r s = Some (tt, s') →
  xfers s' = xfers s ∧ memory s' = memory s ∧ iobufs s' = iobufs s
  ∧ heap_free s' = heap_free s ∧ trace s' = trace s.
Proof.
  rewrite ref_put_run. destruct r as [c|].
  - destruct (refcnts s !! c); [|discriminate].
    intros [= <-]. repeat split.
  - intros [= <-]. repeat split.
Qed.

Lemma xfer_unplug_run (xfer : addr) (s : state) (x old : xfer_interface) :
  xfers s !! xfer = Some x →
  xfers s !! dest (intf x) = Some old →
  xfer_unplug xfer s
  = match ref_put (refcnt (intf old)) s with
    | Some (_, s') =>
        Some (tt, set_xfers
          <[xfer := {| intf := {| dest := null_xfer_addr;
                                  refcnt := refcnt (intf x) |};
                       op := op x |}]> s')
    | None => None
    end.
Proof.
  intros Hx Hold. unfold xfer_unplug. step.
  destruct (ref_put (refcnt (intf old)) s) as [[[] s']|]; reflexivity.
Qed.

(** [can_unplug] is exactly the condition under which [xfer_unplug] has a
    defined behaviour. *)
Lemma can_unplug_defined (xfer : addr) (s : state) :
  can_unplug xfer s = true ↔ is_Some (xfer_unplug xfer s).
Proof.
  unfold can_unplug.
  destruct (xfers s !! xfer) as [x|] eqn:Hx.
  - destruct (xfers s !! dest (intf x)) as [old|] eqn:Hold.
    + rewrite (xfer_unplug_run _ _ _ _ Hx Hold), ref_put_run.
      destruct (refcnt (intf old)) as [c|].
      * rewrite bool_decide_eq_true.
        destruct (refcnts s !! c) as [n|]; split; intros Hs; eauto;
          destruct Hs as [? [=]].
      * split; eauto.
    + unfold xfer_unplug. step. split; [discriminate | intros [? [=]]].
  - unfold xfer_unplug. step. split; [discriminate | intros [? [=]]].
Qed.

(** What unplugging does: the caller's own [dest] now is the null
    interface; every other handle, the memory, the I/O buffers, the heap
    and the trace are as they were. *)
Lemma xfer_unplug_spec (xfer : addr) (s : state) (x : xfer_interface) :
  xfers s !! xfer = Some x →
  can_unplug xfer s = true →
  ∃ s', xfer_unplug xfer s = Some (tt, s')
    ∧ xfers s' = <[xfer := {| intf := {| dest := null_xfer_addr;
                                         refcnt := refcnt (intf x) |};
                              op := op x |}]> (xfers s)
    ∧ memory s' = memory s ∧ iobufs s' = iobufs s
    ∧ heap_free s' = heap_free s ∧ trace s' = trace s.
Proof.
  intros Hx Hcan.
  apply can_unplug_defined in Hcan as [[[] s'] Hs'].
  exists s'. split; [exact Hs'|].
  unfold can_unplug in *.
  destruct (xfers s !! dest (intf x)) as [old|] eqn:Hold.
  - rewrite (xfer_unplug_run _ _ _ _ Hx Hold) in Hs'.
    destruct (ref_put (refcnt (intf old)) s) as [[[] s0]|] eqn:Hput; [|discriminate].
    injection Hs' as <-.
    apply ref_put_frame in Hput as (Hxf & Hm & Hi & Hh & Ht).
    simpl. rewrite Hxf. repeat split; assumption.
  - unfold xfer_unplug in Hs'. revert Hs'. step. discriminate.
Qed.

(** Unplugging a handle whose partner already is the null interface, as
    its initialiser set it up, changes nothing. *)
Lemma xfer_unplug_unplugged (xfer : addr) (s : state) (x : xfer_interface) :
  xfers s !! xfer = Some x →
  dest (intf x) = null_xfer_addr →
  xfers s !! null_xfer_addr = Some null_xfer →
  xfer_unplug xfer s = Some (tt, s).
Proof.
  intros Hx Hdest Hnull.
  rewrite (xfer_unplug_run _ _ x null_xfer Hx) by (rewrite Hdest; exact Hnull).
  simpl. f_equal. f_equal.
  destruct s as [xf rc mem iob hf tr]. unfold set_xfers. simpl in *. f_equal.
  apply insert_id. rewrite Hx. f_equal.
  destruct x as [[d r] o]. simpl in *. subst d. reflexivity.
Qed.

(** *** Releasing I/O buffers *)

Lemma free_iob_run (iobuf : addr) (s : state) :
  free_iob iobuf s
  = match iobufs s !! iobuf with
    | Some b =>
        match memory s !! (head b).1 with
        | Some blk =>
            Some (tt, set_heap_free (λ n, n + N.of_nat (length blk))%N
                        (set_iobufs (delete iobuf)
                           (set_memory (delete (head b).1) s)))
        | None => None
        end
    | None => None
    end.
Proof.
  unfold free_iob. step.
  destruct (iobufs s !! iobuf) as [b|]; [|reflexivity].
  rewrite !bind_run. simpl.
  destruct (memory s !! (head b).1); reflexivity.
Qed.

(** What a release does: the buffer is live no more, every other buffer
    is, and no interface handle is touched. *)
Lemma free_iob_spec (iobuf : addr) (s : state) :
  can_free iobuf s = true →
  ∃ s', free_iob iobuf s = Some (tt, s')
    ∧ iobufs s' = delete iobuf (iobufs s)
    ∧ xfers s' = xfers s ∧ refcnts s' = refcnts s ∧ trace s' = trace s.
Proof.
  unfold can_free. rewrite free_iob_run.
  destruct (iobufs s !! iobuf) as [b|]; [|discriminate].
  rewrite bool_decide_eq_true. intros [blk Hblk]. rewrite Hblk.
  eexists. split; [reflexivity|]. repeat split.
Qed.

(** *** Byte memory and allocation *)

Lemma load_bytes_run (p : ptr) (len : size_t) (s : state) :
  load_bytes p len s
  = match memory s !! p.1 with
    | Some blk =>
        if decide (N.to_nat p.2 + N.to_nat len ≤ length blk)%nat
        then Some (take (N.to_nat len) (drop (N.to_nat p.2) blk), s)
        else None
    | None => None
    end.
Proof.
  unfold load_bytes, gets, some_or_undef, undef, mbind, M_bind, mret, M_ret.
  destruct (memory s !! p.1) as [blk|]; [|reflexivity].
  destruct (decide _); reflexivity.
Qed.

Lemma store_bytes_run (p : ptr) (bs : list Byte.byte) (s : state) :
  store_bytes p bs s
  = match memory s !! p.1 with
    | Some blk =>
        if decide (N.to_nat p.2 + length bs ≤ length blk)%nat
        then Some (tt, set_memory
               <[p.1 := take (N.to_nat p.2) blk ++ bs
                        ++ drop (N.to_nat p.2 + length bs) blk]> s)
        else None
    | None => None
    end.
Proof.
  unfold store_bytes, gets, modify, some_or_undef, undef, mbind, M_bind, mret, M_ret.
  destruct (memory s !! p.1) as [blk|]; [|reflexivity].
  destruct (decide _); reflexivity.
Qed.

(** The bytes read at a pointer are as many as were asked for. *)
Lemma load_bytes_length (p : ptr) (len : size_t) (s s' : state) (bs : list Byte.byte) :
  load_bytes p len s = Some (bs, s') →
  length bs = N.to_nat len ∧ s' = s ∧ is_Some (memory s !! p.1).
Proof.
  rewrite load_bytes_run.
  destruct (memory s !! p.1) as [blk|]; [|discriminate].
  destruct (decide _) as [Hle|]; [|discriminate].
  intros [= <- <-]. split; [|eauto].
  rewrite length_take, length_drop. lia.
Qed.

Lemma fresh_block_memory (s : state) : memory s !! fresh_block s = None.
Proof.
  apply not_elem_of_dom. unfold fresh_block.
  pose proof (is_fresh (dom (memory s) ∪ dom (iobufs s))). set_solver.
Qed.

Lemma fresh_block_iobufs (s : state) : iobufs s !! fresh_block s = None.
Proof.
  apply not_elem_of_dom. unfold fresh_block.
  pose proof (is_fresh (dom (memory s) ∪ dom (iobufs s))). set_solver.
Qed.

Lemma alloc_iob_run (len : size_t) (s : state) (r : option addr) (s0 : state) :
  alloc_iob len s = Some (r, s0) →
  match r with
  | None => (heap_free s < len)%N ∧ s0 = s
  | Some iobuf =>
      (len ≤ heap_free s)%N ∧ iobuf = fresh_block s
      ∧ s0 = set_heap_free (λ n, n - len)%N
               (set_iobufs <[iobuf := {| head := (iobuf, 0%N); data := (iobuf, 0%N);
                                         tail := (iobuf, 0%N); end_ := (iobuf, len) |}]>
                  (set_memory <[iobuf := replicate (N.to_nat len) Byte.x00]> s))
  end.
Proof.
  unfold alloc_iob. destruct (decide _) as [Hle|Hgt]; intros [= <- <-].
  - repeat split. exact Hle.
  - split; [lia | reflexivity].
Qed.

(** Filling a newly allocated buffer from raw data that can be read: the
    new buffer holds the bytes read, and nothing else has changed. *)
Lemma iob_fill_spec (iobuf : addr) (data : ptr) (len : size_t)
    (s s0 : state) (bs : list Byte.byte) :
  alloc_iob len s = Some (Some iobuf, s0) →
  load_bytes data len s = Some (bs, s) →
  ∃ s1, iob_fill iobuf data len s0 = Some (tt, s1)
    ∧ memory s1 = <[iobuf := bs]> (memory s)
    ∧ iobufs s1 = <[iobuf := {| head := (iobuf, 0%N); data := (iobuf, 0%N);
                                tail := (iobuf, len); end_ := (iobuf, len) |}]>
                    (iobufs s)
    ∧ xfers s1 = xfers s ∧ refcnts s1 = refcnts s ∧ trace s1 = trace s.
Proof.
  intros Halloc Hload.
  apply alloc_iob_run in Halloc as (Hle & -> & ->).
  pose proof (load_bytes_length _ _ _ _ _ Hload) as (Hlen & _ & [blk Hblk]).
  assert (Hne : data.1 ≠ fresh_block s).
  { intros Heq. rewrite Heq, fresh_block_memory in Hblk. discriminate. }
  rewrite load_bytes_run, Hblk in Hload.
  destruct (decide _) as [Hfit|]; [|discriminate]. injection Hload as Hbs.
  unfold iob_fill, iob_put, memcpy.
  eexists. split.
  - step. simpl. rewrite lookup_insert_eq. simpl. rewrite !bind_run. simpl.
    rewrite load_bytes_run. simpl.
    rewrite lookup_insert_ne by congruence. rewrite Hblk.
    rewrite decide_True by exact Hfit. rewrite Hbs.
    rewrite !bind_run, store_bytes_run. simpl.
    rewrite lookup_insert_eq.
    rewrite decide_True by (rewrite length_replicate; lia).
    simpl. reflexivity.
  - simpl. repeat split.
    + rewrite insert_insert_eq. f_equal.
      rewrite drop_ge by (rewrite length_replicate; lia).
      apply app_nil_r.
    + rewrite insert_insert_eq. rewrite N.add_0_l. reflexivity.
Qed.

(** Filling a buffer touches no interface handle. *)
Lemma iob_fill_frame (iobuf : addr) (data : ptr) (len : size_t) (s0 s1 : state) :
  iob_fill iobuf data len s0 = Some (tt, s1) → xfers s1 = xfers s0.
Proof.
  unfold iob_fill, iob_put, memcpy. step.
  destruct (iobufs s0 !! iobuf) as [b|]; [|discriminate].
  simpl. rewrite !bind_run. simpl. rewrite load_bytes_run. simpl.
  destruct (memory s0 !! data.1) as [blk|]; [|discriminate].
  destruct (decide _); [|discriminate].
  rewrite !bind_run, store_bytes_run. simpl.
  destruct (memory s0 !! (tail b).1) as [blk'|]; [|discriminate].
  destruct (decide _); [|discriminate].
  simpl. intros [= <-]. reflexivity.
Qed.

Section properties.
Context {image : Image}.

(** The [deliver_raw] member that [deliver_as_raw] calls through is the
    member of the table at that address. *)
Lemma ops_deliver_raw (p : ops_ptr) : deliver_raw_at p = Ops.deliver_raw (ops p).
Proof. destruct p; reflexivity. Qed.

Lemma redirect_run (xfer : addr) (type : Z) (trailing : list Z) (s : state) :
  redirect xfer type trailing s = vredirect xfer type (va_start trailing) s.
Proof.
  unfold redirect, va_end. rewrite bind_run.
  destruct (vredirect xfer type (va_start trailing) s) as [[rc s']|]; reflexivity.
Qed.

(** The dispatch functions, run in a state where the handle and its
    partner exist. *)
Lemma dispatch_run
    (xfer : addr) (s : state) (x d : xfer_interface)
    (rc type : Z) (args : va_list) (pos len : size_t) (iobuf : addr) (data : ptr) :
  xfers s !! xfer = Some x →
  xfers s !! dest (intf x) = Some d →
  close xfer rc s = (Ops.close (ops (op d)) (dest (intf x)) rc;; xfer_unplug xfer) s
  ∧ seek xfer pos s = Ops.seek (ops (op d)) (dest (intf x)) pos s
  ∧ vredirect xfer type args s
    = Ops.vredirect (ops (op d)) (dest (intf x)) type args s
  ∧ redirect xfer type args s
    = Ops.vredirect (ops (op d)) (dest (intf x)) type (va_start args) s
  ∧ deliver xfer iobuf s = Ops.deliver (ops (op d)) (dest (intf x)) iobuf s
  ∧ deliver_raw xfer data len s
    = Ops.deliver_raw (ops (op d)) (dest (intf x)) data len s.
Proof.
  intros Hx Hd.
  rewrite redirect_run.
  unfold close, seek, vredirect, deliver, deliver_raw.
  repeat split; step; reflexivity.
Qed.

(** C1. Every dispatch function invokes the operation registered in the
    table of the handle's partner, with the partner as receiver and the
    caller's arguments as they are; what the partner's operation returns,
    status and state, is what the dispatch function returns ([close]
    returns no status and goes on to unplug the caller's handle). *)
Theorem dispatch_invokes_partner_operation
    (xfer : addr) (s : state) (x d : xfer_interface)
    (rc type : Z) (args : va_list) (pos len : size_t) (iobuf : addr) (data : ptr) :
  xfers s !! xfer = Some x →
  xfers s !! dest (intf x) = Some d →
  let partner := dest (intf x) in
  let table := ops (op d) in
  close xfer rc s = (Ops.close table partner rc;; xfer_unplug xfer) s
  ∧ seek xfer pos s = Ops.seek table partner pos s
  ∧ vredirect xfer type args s = Ops.vredirect table partner type args s
  ∧ redirect xfer type args s = Ops.vredirect table partner type (va_start args) s
  ∧ deliver xfer iobuf s = Ops.deliver table partner iobuf s
  ∧ deliver_raw xfer data len s = Ops.deliver_raw table partner data len s.
Proof. intros Hx Hd partner table. apply dispatch_run; assumption. Qed.


(** C7. The fixed-arity entry point [redirect] packages its trailing
    arguments into a [va_list] and delegates to [vredirect]: both return
    the same status and leave the same state. *)
Theorem redirect_is_vredirect
    (xfer : addr) (type : Z) (trailing : list Z) (s : state) :
  redirect xfer type trailing s = vredirect xfer type (va_start trailing) s.
Proof. apply redirect_run. Qed.

(** C8. The ignore helpers are total and do nothing: for every handle,
    valid or not, every input and every state, [ignore_close] returns with
    the state as it was, and [ignore_seek], [ignore_vredirect] and
    [ignore_deliver_raw] return success (0) with the state as it was. *)
Theorem ignore_helpers_do_nothing
    (xfer : addr) (rc type : Z) (args : va_list) (pos len : size_t)
    (data : ptr) (s : state) :
  ignore_close xfer rc s = Some (tt, s)
  ∧ ignore_seek xfer pos s = Some (0, s)
  ∧ ignore_vredirect xfer type args s = Some (0, s)
  ∧ ignore_deliver_raw xfer data len s = Some (0, s).
Proof. repeat split. Qed.

(** C2. [close] first invokes the [close] operation of the handle's
    partner with the caller's reason code, and then unplugs the caller's
    own handle: whatever state [s1] the partner's operation left, provided
    the handle can still be unplugged there, [close] returns (with no
    status) and the handle's partner now is the null interface. *)
Theorem close_severs_own_routing
    (xfer : addr) (rc : Z) (s s1 : state) (x d : xfer_interface) :
  xfers s !! xfer = Some x →
  xfers s !! dest (intf x) = Some d →
  Ops.close (ops (op d)) (dest (intf x)) rc s = Some (tt, s1) →
  can_unplug xfer s1 = true →
  ∃ s2, close xfer rc s = Some (tt, s2)
    ∧ xfer_unplug xfer s1 = Some (tt, s2)
    ∧ xfer_dest xfer s2 = Some (null_xfer_addr, s2).
Proof.
  intros Hx Hd Hclose Hcan.
  destruct (xfers s1 !! xfer) as [x1|] eqn:Hx1;
    [|unfold can_unplug in Hcan; rewrite Hx1 in Hcan; discriminate].
  destruct (xfer_unplug_spec _ _ _ Hx1 Hcan) as (s2 & Hun & Hxf & _).
  exists s2. split; [|split; [exact Hun|]].
  - unfold close. step. exact Hun.
  - rewrite xfer_dest_run, Hxf, lookup_insert_eq. reflexivity.
Qed.

(** C6. For two handles [A] and [B] with [B] the partner of [A],
    [close A rc] invokes [B]'s [close] with [rc] and unplugs [A] only:
    afterwards the partner of [A] is the null interface, and [B], like
    every handle other than [A], is as [B]'s own operation left it; so
    when that operation did not touch [B], the partner of [B] is what it
    was before the call. *)
Theorem close_unplugs_caller_only
    (A B : addr) (rc : Z) (s s1 : state) (xa xb : xfer_interface) :
  xfers s !! A = Some xa →
  dest (intf xa) = B →
  xfers s !! B = Some xb →
  A ≠ B →
  Ops.close (ops (op xb)) B rc s = Some (tt, s1) →
  can_unplug A s1 = true →
  ∃ s2, close A rc s = Some (tt, s2)
    ∧ xfer_dest A s2 = Some (null_xfer_addr, s2)
    ∧ xfers s2 !! B = xfers s1 !! B
    ∧ (xfers s1 !! B = Some xb → xfer_dest B s2 = Some (dest (intf xb), s2))
    ∧ ∀ h, h ≠ A → xfers s2 !! h = xfers s1 !! h.
Proof.
  intros Ha HB Hb Hne Hclose Hcan. subst B.
  destruct (xfers s1 !! A) as [x1|] eqn:Hx1;
    [|unfold can_unplug in Hcan; rewrite Hx1 in Hcan; discriminate].
  destruct (xfer_unplug_spec _ _ _ Hx1 Hcan) as (s2 & Hun & Hxf & _).
  assert (Hframe : ∀ h, h ≠ A → xfers s2 !! h = xfers s1 !! h).
  { intros h Hh. rewrite Hxf. apply lookup_insert_ne. congruence. }
  exists s2. repeat split.
  - unfold close. step. exact Hun.
  - rewrite xfer_dest_run, Hxf, lookup_insert_eq. reflexivity.
  - apply Hframe. congruence.
  - intros Hsame. rewrite xfer_dest_run, Hframe, Hsame by congruence.
    reflexivity.
  - exact Hframe.
Qed.


(** *** Calls that reach the null interface *)

Lemma deliver_to_null (xfer iobuf : addr) (s : state) (x : xfer_interface) :
  xfers s !! null_xfer_addr = Some null_xfer →
  xfers s !! xfer = Some x →
  dest (intf x) = null_xfer_addr →
  deliver xfer iobuf s = (free_iob iobuf;; mret 0) s.
Proof.
  intros Hnull Hx Hdest.
  unfold deliver. step. rewrite Hdest. step. simpl.
  unfold deliver_as_raw. step.
  rewrite (free_iob_run iobuf s).
  destruct (iobufs s !! iobuf) as [b|] eqn:Hb; [|reflexivity].
  simpl. rewrite !bind_run. simpl.
  rewrite bind_run, free_iob_run, Hb. reflexivity.
Qed.

(** The dispatch functions, run through a handle whose partner is the
    null interface. *)
Lemma null_dispatch_run
    (xfer : addr) (s : state) (x : xfer_interface)
    (rc type : Z) (args : va_list) (pos len : size_t) (data : ptr) :
  xfers s !! null_xfer_addr = Some null_xfer →
  xfers s !! xfer = Some x →
  dest (intf x) = null_xfer_addr →
  close xfer rc s = Some (tt, s)
  ∧ seek xfer pos s = Some (0, s)
  ∧ vredirect xfer type args s = Some (0, s)
  ∧ redirect xfer type args s = Some (0, s)
  ∧ deliver_raw xfer data len s = Some (0, s).
Proof.
  intros Hnull Hx Hdest.
  assert (Hd : xfers s !! dest (intf x) = Some null_xfer)
    by (rewrite Hdest; exact Hnull).
  destruct (dispatch_run xfer s x null_xfer rc type args pos len
              1%positive data Hx Hd)
    as (Hclose & Hseek & Hvred & Hred & _ & Hraw).
  split.
  { rewrite Hclose. simpl. rewrite bind_run. simpl.
    apply (xfer_unplug_unplugged _ _ _ Hx Hdest Hnull). }
  split; [rewrite Hseek; reflexivity|].
  split; [rewrite Hvred; reflexivity|].
  split; [rewrite Hred; reflexivity|].
  rewrite Hraw; reflexivity.
Qed.

(** C5. The null interface is its own partner, has no reference counter,
    and its table is [ignore_close], [ignore_vredirect], [ignore_seek],
    [deliver_as_raw], [ignore_deliver_raw].  So through any handle whose
    partner is the null interface, for any input: [close] changes
    nothing; [seek], [vredirect] and [redirect] return success and change
    nothing; [deliver_raw] returns success and changes nothing;
    [deliver] releases the buffer and returns success. *)
Theorem null_xfer_absorbs
    (xfer : addr) (s : state) (x : xfer_interface)
    (rc type : Z) (args : va_list) (pos len : size_t) (iobuf : addr) (data : ptr) :
  xfers s !! null_xfer_addr = Some null_xfer →
  xfers s !! xfer = Some x →
  dest (intf x) = null_xfer_addr →
  (dest (intf null_xfer) = null_xfer_addr
   ∧ refcnt (intf null_xfer) = None
   ∧ ops (op null_xfer)
     = {| Ops.close := ignore_close; Ops.vredirect := ignore_vredirect;
          Ops.seek := ignore_seek; Ops.deliver := deliver_as_raw;
          Ops.deliver_raw := ignore_deliver_raw |})
  ∧ close xfer rc s = Some (tt, s)
  ∧ seek xfer pos s = Some (0, s)
  ∧ vredirect xfer type args s = Some (0, s)
  ∧ redirect xfer type args s = Some (0, s)
  ∧ deliver_raw xfer data len s = Some (0, s)
  ∧ deliver xfer iobuf s = (free_iob iobuf;; mret 0) s
  ∧ (can_free iobuf s = true →
     ∃ s', deliver xfer iobuf s = Some (0, s')
       ∧ iobufs s' = delete iobuf (iobufs s) ∧ xfers s' = xfers s).
Proof.
  intros Hnull Hx Hdest.
  destruct (null_dispatch_run xfer s x rc type args pos len data Hnull Hx Hdest)
    as (Hclose & Hseek & Hvred & Hred & Hraw).
  split; [repeat split|].
  repeat (split; [assumption|]).
  split; [apply (deliver_to_null _ _ _ _ Hnull Hx Hdest)|].
  intros Hfree. rewrite (deliver_to_null _ _ _ _ Hnull Hx Hdest), bind_run.
  destruct (free_iob_spec _ _ Hfree) as (s' & -> & Hi & Hxf & _).
  exists s'. repeat split; assumption.
Qed.

(** C9. Every dispatch function resolves the partner once, on entry.  If
    the operation it invokes unplugs the very handle the call came
    through, so that in the state [s1] the operation leaves the handle's
    partner is the null interface, the call in flight still is the call
    to the partner of the entry state and returns that operation's
    result; a call made afterwards reaches the null interface. *)
Theorem dispatch_resolves_partner_on_entry
    (xfer : addr) (s : state) (x d : xfer_interface)
    (rc type : Z) (args : va_list) (pos len : size_t) (iobuf : addr) (data : ptr) :
  xfers s !! xfer = Some x →
  xfers s !! dest (intf x) = Some d →
  let partner := dest (intf x) in
  let table := ops (op d) in
  let unplugged (s1 : state) :=
    xfer_dest xfer s1 = Some (null_xfer_addr, s1)
    ∧ xfers s1 !! null_xfer_addr = Some null_xfer in
  (∀ s1, Ops.close table partner rc s = Some (tt, s1) → unplugged s1 →
     close xfer rc s = Some (tt, s1)
     ∧ ∀ rc', close xfer rc' s1 = Some (tt, s1))
  ∧ (∀ r s1, Ops.seek table partner pos s = Some (r, s1) → unplugged s1 →
     seek xfer pos s = Some (r, s1)
     ∧ ∀ pos', seek xfer pos' s1 = Some (0, s1))
  ∧ (∀ r s1, Ops.vredirect table partner type args s = Some (r, s1) →
     unplugged s1 →
     vredirect xfer type args s = Some (r, s1)
     ∧ ∀ type' args', vredirect xfer type' args' s1 = Some (0, s1))
  ∧ (∀ r s1, Ops.deliver table partner iobuf s = Some (r, s1) → unplugged s1 →
     deliver xfer iobuf s = Some (r, s1)
     ∧ ∀ iobuf', deliver xfer iobuf' s1 = (free_iob iobuf';; mret 0) s1)
  ∧ (∀ r s1, Ops.deliver_raw table partner data len s = Some (r, s1) →
     unplugged s1 →
     deliver_raw xfer data len s = Some (r, s1)
     ∧ ∀ data' len', deliver_raw xfer data' len' s1 = Some (0, s1)).
Proof.
  intros Hx Hd partner table unplugged.
  destruct (dispatch_run xfer s x d rc type args pos len iobuf data Hx Hd)
    as (Hclose & Hseek & Hvred & _ & Hdel & Hraw).
  fold partner table in Hclose, Hseek, Hvred, Hdel, Hraw.
  assert (Hlater : ∀ s1, unplugged s1 →
            ∃ x1, xfers s1 !! xfer = Some x1 ∧ dest (intf x1) = null_xfer_addr
                  ∧ xfers s1 !! null_xfer_addr = Some null_xfer).
  { intros s1 [Hdest Hnull]. rewrite xfer_dest_run in Hdest.
    destruct (xfers s1 !! xfer) as [x1|]; [|discriminate].
    exists x1. repeat split; [congruence | exact Hnull]. }
  split; [|split; [|split; [|split]]].
  - intros s1 Hop Hun.
    destruct (Hlater _ Hun) as (x1 & Hx1 & Hdest1 & Hnull1). split.
    + rewrite Hclose, bind_run, Hop.
      apply (xfer_unplug_unplugged _ _ _ Hx1 Hdest1 Hnull1).
    + intros rc'.
      apply (null_dispatch_run xfer s1 x1 rc' 0 [] 0%N 0%N (1%positive, 0%N)
               Hnull1 Hx1 Hdest1).
  - intros r s1 Hop Hun.
    destruct (Hlater _ Hun) as (x1 & Hx1 & Hdest1 & Hnull1). split.
    + rewrite Hseek. exact Hop.
    + intros pos'.
      apply (null_dispatch_run xfer s1 x1 0 0 [] pos' 0%N (1%positive, 0%N)
               Hnull1 Hx1 Hdest1).
  - intros r s1 Hop Hun.
    destruct (Hlater _ Hun) as (x1 & Hx1 & Hdest1 & Hnull1). split.
    + rewrite Hvred. exact Hop.
    + intros type' args'.
      apply (null_dispatch_run xfer s1 x1 0 type' args' 0%N 0%N (1%positive, 0%N)
               Hnull1 Hx1 Hdest1).
  - intros r s1 Hop Hun.
    destruct (Hlater _ Hun) as (x1 & Hx1 & Hdest1 & Hnull1). split.
    + rewrite Hdel. exact Hop.
    + intros iobuf'. apply (deliver_to_null _ _ _ _ Hnull1 Hx1 Hdest1).
  - intros r s1 Hop Hun.
    destruct (Hlater _ Hun) as (x1 & Hx1 & Hdest1 & Hnull1). split.
    + rewrite Hraw. exact Hop.
    + intros data' len'.
      apply (null_dispatch_run xfer s1 x1 0 0 [] 0%N len' data'
               Hnull1 Hx1 Hdest1).
Qed.


(** *** The representation adaptors *)

Lemma deliver_as_raw_run (xfer iobuf : addr) (s : state)
    (x : xfer_interface) (b : io_buffer) :
  xfers s !! xfer = Some x →
  iobufs s !! iobuf = Some b →
  deliver_as_raw xfer iobuf s
  = match Ops.deliver_raw (ops (op x)) xfer (data b) (iob_len b) s with
    | Some (rc, s1) =>
        match free_iob iobuf s1 with
        | Some (_, s2) => Some (rc, s2)
        | None => None
        end
    | None => None
    end.
Proof.
  intros Hx Hb. unfold deliver_as_raw. step. rewrite ops_deliver_raw.
  destruct (Ops.deliver_raw (ops (op x)) xfer (data b) (iob_len b) s)
    as [[rc s1]|]; [|reflexivity].
  rewrite bind_run. destruct (free_iob iobuf s1) as [[[] s2]|]; reflexivity.
Qed.

Lemma deliver_as_iobuf_run (xfer : addr) (data : ptr) (len : size_t) (s : state) :
  deliver_as_iobuf xfer data len s
  = match alloc_iob len s with
    | Some (None, s0) => Some (- ENOMEM, s0)
    | Some (Some iobuf, s0) =>
        match iob_fill iobuf data len s0 with
        | Some (_, s1) =>
            match xfers s1 !! xfer with
            | Some x => Ops.deliver (ops (op x)) xfer iobuf s1
            | None => None
            end
        | None => None
        end
    | None => None
    end.
Proof.
  unfold deliver_as_iobuf, iob_fill. rewrite bind_run.
  destruct (alloc_iob len s) as [[[iobuf|] s0]|]; try reflexivity.
  rewrite !bind_run.
  destruct (iob_put iobuf len s0) as [[dst s']|]; [|reflexivity].
  rewrite !bind_run.
  destruct (memcpy dst data len s') as [[p s1]|]; [|reflexivity].
  simpl. step. destruct (xfers s1 !! xfer); reflexivity.
Qed.

(** C4. [deliver_as_raw] calls the [deliver_raw] operation of the
    handle's own table, on the handle itself, with the buffer's [data]
    pointer and the buffer's length; whatever status [rc] that call
    returns, success or failure, the buffer is then released, once: it is
    live no more and every other buffer is as the call left it. *)
Theorem deliver_as_raw_delivers_then_releases
    (xfer iobuf : addr) (s s1 : state) (x : xfer_interface) (b : io_buffer)
    (rc : Z) :
  xfers s !! xfer = Some x →
  iobufs s !! iobuf = Some b →
  Ops.deliver_raw (ops (op x)) xfer (data b) (iob_len b) s = Some (rc, s1) →
  can_free iobuf s1 = true →
  ∃ s2, deliver_as_raw xfer iobuf s = Some (rc, s2)
    ∧ free_iob iobuf s1 = Some (tt, s2)
    ∧ iobufs s2 !! iobuf = None
    ∧ (∀ i, i ≠ iobuf → iobufs s2 !! i = iobufs s1 !! i)
    ∧ xfers s2 = xfers s1 ∧ trace s2 = trace s1.
Proof.
  intros Hx Hb Hraw Hfree.
  destruct (free_iob_spec _ _ Hfree) as (s2 & Hrel & Hi & Hxf & _ & Htr).
  exists s2. rewrite (deliver_as_raw_run _ _ _ _ _ Hx Hb), Hraw, Hrel, Hi.
  repeat split; try assumption.
  - apply lookup_delete_eq.
  - intros i Hne. apply lookup_delete_ne. congruence.
Qed.

(** C3. [deliver_as_iobuf]: when the allocation fails it returns
    [-ENOMEM] and the state is the state of entry, so nothing was
    delivered and the raw data are as they were.  When the allocation
    succeeds and the [len] bytes at [data] can be read, it fills the new
    buffer with exactly those bytes, leaves the raw data and every other
    buffer as they were, and is one call of the [deliver] operation of the
    handle's own table, on the handle itself, with the new buffer. *)
Theorem deliver_as_iobuf_copies_or_fails
    (xfer : addr) (data : ptr) (len : size_t) (s : state) :
  (∀ s0, alloc_iob len s = Some (None, s0) →
     deliver_as_iobuf xfer data len s = Some (- ENOMEM, s))
  ∧ (∀ iobuf s0 x bs,
       alloc_iob len s = Some (Some iobuf, s0) →
       xfers s !! xfer = Some x →
       load_bytes data len s = Some (bs, s) →
       ∃ s1, iob_fill iobuf data len s0 = Some (tt, s1)
         ∧ iob_bytes iobuf s1 = Some bs
         ∧ length bs = N.to_nat len
         ∧ load_bytes data len s1 = Some (bs, s1)
         ∧ (∀ i, i ≠ iobuf → iobufs s1 !! i = iobufs s !! i)
         ∧ xfers s1 = xfers s
         ∧ deliver_as_iobuf xfer data len s
           = Ops.deliver (ops (op x)) xfer iobuf s1).
Proof.
  split.
  - intros s0 Halloc. rewrite deliver_as_iobuf_run, Halloc.
    apply alloc_iob_run in Halloc as [_ ->]. reflexivity.
  - intros iobuf s0 x bs Halloc Hx Hload.
    destruct (iob_fill_spec _ _ _ _ _ _ Halloc Hload)
      as (s1 & Hfill & Hmem & Hiob & Hxf & _).
    pose proof (load_bytes_length _ _ _ _ _ Hload) as (Hlen & _ & [blk Hblk]).
    assert (Hne : data.1 ≠ iobuf).
    { apply alloc_iob_run in Halloc as (_ & -> & _).
      intros Heq. rewrite Heq, fresh_block_memory in Hblk. discriminate. }
    exists s1. split; [exact Hfill|]. split; [|split; [exact Hlen|split; [|split; [|split]]]].
    + unfold iob_bytes. rewrite deref_iob_run, Hiob, lookup_insert_eq.
      rewrite load_bytes_run, Hmem. unfold iob_len. simpl.
      rewrite lookup_insert_eq, N.sub_0_r.
      rewrite decide_True by (rewrite Hlen; reflexivity).
      change (N.to_nat 0) with 0%nat.
      rewrite drop_0, take_ge by (rewrite Hlen; reflexivity). reflexivity.
    + rewrite load_bytes_run in Hload |- *.
      rewrite Hmem, lookup_insert_ne by congruence.
      destruct (memory s !! data.1) as [blk'|]; [|discriminate].
      destruct (decide _); [|discriminate].
      injection Hload as ->. reflexivity.
    + intros i Hi. rewrite Hiob. apply lookup_insert_ne. congruence.
    + exact Hxf.
    + rewrite deliver_as_iobuf_run, Halloc, Hfill, Hxf, Hx. reflexivity.
Qed.

(** C10. The adaptors hand the inner operation's status on as it is.
    [deliver_as_raw] returns the status of the handle's own [deliver_raw]
    call, although it releases the buffer after that call, and returns no
    status that call did not produce; [deliver_as_iobuf], once the buffer
    is allocated and filled, returns what the handle's own [deliver] call
    returns. *)
Theorem adaptors_return_inner_status
    (xfer : addr) (s : state) (x : xfer_interface) :
  xfers s !! xfer = Some x →
  (∀ iobuf b,
     iobufs s !! iobuf = Some b →
     (∀ rc s1,
        Ops.deliver_raw (ops (op x)) xfer (data b) (iob_len b) s = Some (rc, s1) →
        can_free iobuf s1 = true →
        ∃ s2, deliver_as_raw xfer iobuf s = Some (rc, s2))
     ∧ (∀ rc s2,
          deliver_as_raw xfer iobuf s = Some (rc, s2) →
          ∃ s1, Ops.deliver_raw (ops (op x)) xfer (data b) (iob_len b) s
                = Some (rc, s1)))
  ∧ (∀ data len iobuf s0 s1,
       alloc_iob len s = Some (Some iobuf, s0) →
       iob_fill iobuf data len s0 = Some (tt, s1) →
       deliver_as_iobuf xfer data len s = Ops.deliver (ops (op x)) xfer iobuf s1
       ∧ ∀ rc s2,
           Ops.deliver (ops (op x)) xfer iobuf s1 = Some (rc, s2) →
           deliver_as_iobuf xfer data len s = Some (rc, s2)).
Proof.
  intros Hx. split.
  - intros iobuf b Hb. rewrite (deliver_as_raw_run _ _ _ _ _ Hx Hb). split.
    + intros rc s1 Hraw Hfree.
      destruct (free_iob_spec _ _ Hfree) as (s2 & Hrel & _).
      exists s2. rewrite Hraw, Hrel. reflexivity.
    + intros rc s2.
      destruct (Ops.deliver_raw (ops (op x)) xfer (data b) (iob_len b) s)
        as [[rc' s1]|]; [|discriminate].
      destruct (free_iob iobuf s1) as [[[] s2']|]; [|discriminate].
      intros [= <- <-]. exists s1. reflexivity.
  - intros data len iobuf s0 s1 Halloc Hfill.
    assert (Heq : deliver_as_iobuf xfer data len s
                  = Ops.deliver (ops (op x)) xfer iobuf s1).
    { rewrite deliver_as_iobuf_run, Halloc, Hfill.
      rewrite (iob_fill_frame _ _ _ _ _ Hfill).
      apply alloc_iob_run in Halloc as (_ & _ & ->). simpl. rewrite Hx.
      reflexivity. }
    split; [exact Heq|]. intros rc s2 Hdel. rewrite Heq. exact Hdel.
Qed.

End properties.

(** ** The properties at work in the demonstration image *)

(** C1 at [hA], whose partner [hB] is a recording stage while [hA]'s own
    table is the hanging-up one: the calls through [hA] are [hB]'s
    recording operations, received by [hB]. *)
Lemma dispatch_invokes_partner_operation_witness :
  let xA := {| intf := {| dest := hB; refcnt := Some 10%positive |};
               op := stage_ops_addr 2 |} in
  let xB := {| intf := {| dest := hA; refcnt := Some 11%positive |};
               op := stage_ops_addr 1 |} in
  let s := demo_state in
  xfers s !! hA = Some xA
  ∧ xfers s !! hB = Some xB
  ∧ close (image := demo_image) hA (-104) s
    = (rec_close hB (-104);; xfer_unplug hA) s
  ∧ seek (image := demo_image) hA 7%N s = rec_seek hB 7%N s
  ∧ vredirect (image := demo_image) hA 3 [1; 2] s = rec_vredirect hB 3 [1; 2] s
  ∧ redirect (image := demo_image) hA 3 [1; 2] s = rec_vredirect hB 3 [1; 2] s
  ∧ deliver (image := demo_image) hA 21%positive s = rec_deliver hB 21%positive s
  ∧ deliver_raw (image := demo_image) hA (20%positive, 0%N) 5%N s
    = rec_deliver_raw hB (20%positive, 0%N) 5%N s
  ∧ rec_deliver_raw hB (20%positive, 0%N) 5%N s
    = Some (-5, set_trace (λ t, t ++ [ev_deliver_raw hB hello 5%N]) s).
Proof.
  intros xA xB s.
  split; [reflexivity|]. split; [reflexivity|].
  destruct (dispatch_invokes_partner_operation (image := demo_image)
              hA s xA xB (-104) 3 [1; 2] 7%N 5%N 21%positive (20%positive, 0%N))
    as (Hclose & Hseek & Hvred & Hred & Hdel & Hraw);
    [reflexivity | reflexivity |].
  repeat (split; [assumption|]). reflexivity.
Defined.

(** C2 at [hA]: [hB] records the close with its reason, then [hA] is
    unplugged. *)
Lemma close_severs_own_routing_witness :
  let xA := {| intf := {| dest := hB; refcnt := Some 10%positive |};
               op := stage_ops_addr 2 |} in
  let xB := {| intf := {| dest := hA; refcnt := Some 11%positive |};
               op := stage_ops_addr 1 |} in
  let s1 := set_trace (λ t, t ++ [ev_close hB (-104)]) demo_state in
  xfers demo_state !! hA = Some xA
  ∧ xfers demo_state !! hB = Some xB
  ∧ rec_close hB (-104) demo_state = Some (tt, s1)
  ∧ can_unplug hA s1 = true
  ∧ ∃ s2, close (image := demo_image) hA (-104) demo_state = Some (tt, s2)
      ∧ xfer_unplug hA s1 = Some (tt, s2)
      ∧ xfer_dest hA s2 = Some (null_xfer_addr, s2).
Proof.
  intros xA xB s1.
  split; [reflexivity|]. split; [reflexivity|].
  split; [reflexivity|]. split; [reflexivity|].
  apply (close_severs_own_routing (image := demo_image)
           hA (-104) demo_state s1 xA xB); reflexivity.
Defined.

(** C6 at [hA] and [hB]: after [close hA], [hB] still points at [hA]. *)
Lemma close_unplugs_caller_only_witness :
  let xA := {| intf := {| dest := hB; refcnt := Some 10%positive |};
               op := stage_ops_addr 2 |} in
  let xB := {| intf := {| dest := hA; refcnt := Some 11%positive |};
               op := stage_ops_addr 1 |} in
  let s1 := set_trace (λ t, t ++ [ev_close hB (-104)]) demo_state in
  (xfers demo_state !! hA = Some xA ∧ dest (intf xA) = hB
   ∧ xfers demo_state !! hB = Some xB ∧ hA ≠ hB
   ∧ rec_close hB (-104) demo_state = Some (tt, s1)
   ∧ can_unplug hA s1 = true)
  ∧ ∃ s2, close (image := demo_image) hA (-104) demo_state = Some (tt, s2)
      ∧ xfer_dest hA s2 = Some (null_xfer_addr, s2)
      ∧ xfers s2 !! hB = Some xB
      ∧ trace s2 = [ev_close hB (-104)].
Proof.
  intros xA xB s1.
  split; [repeat split; discriminate|].
  destruct (close_unplugs_caller_only (image := demo_image)
              hA hB (-104) demo_state s1 xA xB)
    as (s2 & Hclose & Hdest & HB & _ & _);
    [reflexivity | reflexivity | reflexivity | discriminate
    | reflexivity | reflexivity |].
  exists s2. split; [exact Hclose|]. split; [exact Hdest|].
  split; [rewrite HB; reflexivity|].
  revert Hclose. vm_compute. intros [= <-]. reflexivity.
Defined.

(** C5 at the unplugged handle [hU], the spec's scenario of a handle wired
    only to the null interface. *)
Lemma null_xfer_absorbs_witness :
  let xU := {| intf := {| dest := null_xfer_addr; refcnt := None |};
               op := stage_ops_addr 1 |} in
  let s := demo_state in
  (xfers s !! null_xfer_addr = Some null_xfer
   ∧ xfers s !! hU = Some xU
   ∧ dest (intf xU) = null_xfer_addr)
  ∧ close (image := demo_image) hU (-104) s = Some (tt, s)
  ∧ seek (image := demo_image) hU 100%N s = Some (0, s)
  ∧ redirect (image := demo_image) hU 3 [1; 2] s = Some (0, s)
  ∧ deliver_raw (image := demo_image) hU (20%positive, 0%N) 5%N s = Some (0, s)
  ∧ ∃ s', deliver (image := demo_image) hU 21%positive s = Some (0, s')
      ∧ iobufs s' !! 21%positive = None.
Proof.
  intros xU s.
  split; [repeat split|].
  destruct (null_xfer_absorbs (image := demo_image) hU s xU
              (-104) 3 [1; 2] 100%N 5%N 21%positive (20%positive, 0%N))
    as (_ & Hclose & Hseek & _ & Hred & Hraw & _ & Hdel);
    [reflexivity | reflexivity | reflexivity |].
  repeat (split; [assumption|]).
  destruct Hdel as (s' & Hdel & Hiob & _); [reflexivity|].
  exists s'. split; [exact Hdel|]. rewrite Hiob. apply lookup_delete_eq.
Defined.

(** C9 at [hC], whose partner [hD] hangs up on every call it receives:
    the call in flight returns [hD]'s status, and the next call through
    [hC] is absorbed by the null interface. *)
Lemma dispatch_resolves_partner_on_entry_witness :
  let xC := {| intf := {| dest := hD; refcnt := Some 12%positive |};
               op := stage_ops_addr 1 |} in
  let xD := {| intf := {| dest := hC; refcnt := Some 13%positive |};
               op := stage_ops_addr 2 |} in
  let unplugged :=
    set_xfers <[hC := {| intf := {| dest := null_xfer_addr;
                                    refcnt := Some 12%positive |};
                         op := stage_ops_addr 1 |}]>
      (set_refcnts <[13%positive := 0]> demo_state) in
  let s1 := set_trace (λ t, t ++ [ev_seek hD 7%N]) unplugged in
  let s1' := set_trace (λ t, t ++ [ev_close hD (-104)]) unplugged in
  (xfers demo_state !! hC = Some xC
   ∧ xfers demo_state !! hD = Some xD
   ∧ Ops.seek hangup_ops hD 7%N demo_state = Some (17, s1)
   ∧ Ops.close hangup_ops hD (-104) demo_state = Some (tt, s1')
   ∧ xfer_dest hC s1 = Some (null_xfer_addr, s1)
   ∧ xfer_dest hC s1' = Some (null_xfer_addr, s1'))
  ∧ (seek (image := demo_image) hC 7%N demo_state = Some (17, s1)
     ∧ ∀ pos', seek (image := demo_image) hC pos' s1 = Some (0, s1))
  ∧ (close (image := demo_image) hC (-104) demo_state = Some (tt, s1')
     ∧ ∀ rc', close (image := demo_image) hC rc' s1' = Some (tt, s1')).
Proof.
  intros xC xD unplugged s1 s1'.
  split; [repeat split; vm_compute; reflexivity|].
  destruct (dispatch_resolves_partner_on_entry (image := demo_image)
              hC demo_state xC xD (-104) 0 [] 7%N 0%N 1%positive
              (1%positive, 0%N))
    as (Hclose & Hseek & _); [reflexivity | reflexivity |].
  split.
  - apply (Hseek 17 s1); [vm_compute; reflexivity|].
    split; vm_compute; reflexivity.
  - apply (Hclose s1'); [vm_compute; reflexivity|].
    split; vm_compute; reflexivity.
Defined.

(** C4 at the recording stage [hB], whose [deliver_raw] answers with a
    failure status: it saw the buffer's bytes, and the buffer is released
    all the same. *)
Lemma deliver_as_raw_delivers_then_releases_witness :
  let xB := {| intf := {| dest := hA; refcnt := Some 11%positive |};
               op := stage_ops_addr 1 |} in
  let b := {| head := (21%positive, 0%N); data := (21%positive, 4%N);
              tail := (21%positive, 9%N); end_ := (21%positive, 12%N) |} in
  let s1 := set_trace (λ t, t ++ [ev_deliver_raw hB hello 5%N]) demo_state in
  (xfers demo_state !! hB = Some xB
   ∧ iobufs demo_state !! 21%positive = Some b
   ∧ rec_deliver_raw hB (data b) (iob_len b) demo_state = Some (-5, s1)
   ∧ can_free 21%positive s1 = true)
  ∧ ∃ s2, deliver_as_raw (image := demo_image) hB 21%positive demo_state
          = Some (-5, s2)
      ∧ free_iob 21%positive s1 = Some (tt, s2)
      ∧ iobufs s2 !! 21%positive = None
      ∧ trace s2 = [ev_deliver_raw hB hello 5%N].
Proof.
  intros xB b s1.
  split; [repeat split|].
  destruct (deliver_as_raw_delivers_then_releases (image := demo_image)
              hB 21%positive demo_state s1 xB b (-5))
    as (s2 & Hrun & Hrel & Hgone & _ & _ & Htr);
    [reflexivity | reflexivity | reflexivity | reflexivity |].
  exists s2. repeat split; assumption.
Defined.

(** C3 at the recording stage [hB]: with the heap exhausted the call
    returns [-ENOMEM] and the machine is as it was; with room on the heap
    the new buffer holds [hello] and goes to [hB]'s own [deliver]. *)
Lemma deliver_as_iobuf_copies_or_fails_witness :
  let xB := {| intf := {| dest := hA; refcnt := Some 11%positive |};
               op := stage_ops_addr 1 |} in
  let raw : ptr := (20%positive, 0%N) in
  (alloc_iob 5%N demo_state_full = Some (None, demo_state_full)
   ∧ deliver_as_iobuf (image := demo_image) hB raw 5%N demo_state_full
     = Some (-12, demo_state_full))
  ∧ ∃ s0, (alloc_iob 5%N demo_state = Some (Some 22%positive, s0)
           ∧ xfers demo_state !! hB = Some xB
           ∧ load_bytes raw 5%N demo_state = Some (hello, demo_state))
      ∧ ∃ s1, iob_fill 22%positive raw 5%N s0 = Some (tt, s1)
          ∧ iob_bytes 22%positive s1 = Some hello
          ∧ load_bytes raw 5%N s1 = Some (hello, s1)
          ∧ deliver_as_iobuf (image := demo_image) hB raw 5%N demo_state
            = rec_deliver hB 22%positive s1.
Proof.
  intros xB raw. split.
  - split; [reflexivity|].
    apply (proj1 (deliver_as_iobuf_copies_or_fails (image := demo_image)
                    hB raw 5%N demo_state_full) demo_state_full).
    reflexivity.
  - eexists. split; [repeat split|].
    match goal with
    | |- context [iob_fill _ _ _ ?s0] =>
        destruct (proj2 (deliver_as_iobuf_copies_or_fails (image := demo_image)
                           hB raw 5%N demo_state) 22%positive s0 xB hello)
          as (s1 & Hfill & Hbytes & _ & Hraw & _ & _ & Hrun);
          [reflexivity | reflexivity | reflexivity |]
    end.
    exists s1. repeat split; assumption.
Defined.

(** C10 at the recording stage [hB]: [deliver_as_raw] returns the -5 of
    [hB]'s [deliver_raw], [deliver_as_iobuf] the 31 of [hB]'s [deliver]. *)
Lemma adaptors_return_inner_status_witness :
  let xB := {| intf := {| dest := hA; refcnt := Some 11%positive |};
               op := stage_ops_addr 1 |} in
  let raw : ptr := (20%positive, 0%N) in
  xfers demo_state !! hB = Some xB
  ∧ (∃ s2, deliver_as_raw (image := demo_image) hB 21%positive demo_state
           = Some (-5, s2))
  ∧ (∃ s2, deliver_as_iobuf (image := demo_image) hB raw 5%N demo_state
           = Some (31, s2)).
Proof.
  intros xB raw. split; [reflexivity|].
  destruct (adaptors_return_inner_status (image := demo_image)
              hB demo_state xB eq_refl) as [Hraw Hiobuf].
  split.
  - destruct (Hraw 21%positive _ eq_refl) as [Hstatus _].
    eapply Hstatus; vm_compute; reflexivity.
  - destruct (alloc_iob 5%N demo_state) as [[[iobuf|] s0]|] eqn:Halloc;
      try discriminate.
    destruct (iob_fill iobuf raw 5%N s0) as [[[] s1]|] eqn:Hfill.
    + destruct (Hiobuf raw 5%N iobuf s0 s1 Halloc Hfill) as [Heq _].
      rewrite Heq. revert Halloc Hfill. vm_compute.
      intros [= <- <-] [= <-]. eexists. reflexivity.
    + revert Halloc Hfill. vm_compute. intros [= <- <-]. discriminate.
Defined.

(** ** Further properties of xfer.c: how its functions compose *)

(** Everything [xfer_unplug] does to a state. *)
Lemma xfer_unplug_effect (xfer : addr) (s s' : state) (x old : xfer_interface) :
  xfers s !! xfer = Some x →
  xfers s !! dest (intf x) = Some old →
  xfer_unplug xfer s = Some (tt, s') →
  xfers s' = <[xfer := {| intf := {| dest := null_xfer_addr;
                                     refcnt := refcnt (intf x) |};
                          op := op x |}]> (xfers s)
  ∧ (refcnt (intf old) = None → refcnts s' = refcnts s)
  ∧ (∀ c, refcnt (intf old) = Some c →
       ∃ n, refcnts s !! c = Some n ∧ refcnts s' = <[c := n - 1]> (refcnts s))
  ∧ memory s' = memory s ∧ iobufs s' = iobufs s
  ∧ heap_free s' = heap_free s ∧ trace s' = trace s.
Proof.
  intros Hx Hold. rewrite (xfer_unplug_run _ _ _ _ Hx Hold), ref_put_run.
  destruct (refcnt (intf old)) as [c|].
  - destruct (refcnts s !! c) as [n|] eqn:Hc; [|discriminate].
    intros [= <-]. repeat split; try discriminate.
    intros c' [= <-]. exists n. split; [exact Hc | reflexivity].
  - intros [= <-]. repeat split. intros c [=].
Qed.

(** Allocation and filling leave the counters, the heap budget beyond the
    request, and the trace alone. *)
Lemma iob_fill_rest (iobuf : addr) (data : ptr) (len : size_t) (s0 s1 : state) :
  iob_fill iobuf data len s0 = Some (tt, s1) →
  refcnts s1 = refcnts s0 ∧ heap_free s1 = heap_free s0 ∧ trace s1 = trace s0.
Proof.
  unfold iob_fill, iob_put, memcpy. step.
  destruct (iobufs s0 !! iobuf) as [b|]; [|discriminate].
  simpl. rewrite !bind_run. simpl. rewrite load_bytes_run. simpl.
  destruct (memory s0 !! data.1) as [blk|]; [|discriminate].
  destruct (decide _); [|discriminate].
  rewrite !bind_run, store_bytes_run. simpl.
  destruct (memory s0 !! (tail b).1) as [blk'|]; [|discriminate].
  destruct (decide _); [|discriminate].
  simpl. intros [= <-]. repeat split.
Qed.

Section compositions.
Context {image : Image}.

(** X1. A handle that was closed is terminated for good: once [close]
    has returned, a second [close] changes nothing (the partner is not
    notified again and no interest is released twice), [seek],
    [vredirect], [redirect] and [deliver_raw] return success and change
    nothing, [deliver] releases its buffer, and the null interface is
    still what its initialiser made it, also when the handle closed is the
    null interface itself. *)
Theorem closed_handle_is_absorbing
    (xfer : addr) (rc : Z) (s s1 : state) (x d : xfer_interface) :
  xfers s !! xfer = Some x →
  xfers s !! dest (intf x) = Some d →
  Ops.close (ops (op d)) (dest (intf x)) rc s = Some (tt, s1) →
  can_unplug xfer s1 = true →
  xfers s1 !! null_xfer_addr = Some null_xfer →
  ∃ s2, close xfer rc s = Some (tt, s2)
    ∧ xfers s2 !! null_xfer_addr = Some null_xfer
    ∧ (∀ rc', close xfer rc' s2 = Some (tt, s2))
    ∧ (∀ pos, seek xfer pos s2 = Some (0, s2))
    ∧ (∀ type args, vredirect xfer type args s2 = Some (0, s2)
                    ∧ redirect xfer type args s2 = Some (0, s2))
    ∧ (∀ data len, deliver_raw xfer data len s2 = Some (0, s2))
    ∧ (∀ iobuf, deliver xfer iobuf s2 = (free_iob iobuf;; mret 0) s2).
Proof.
  intros Hx Hd Hclose Hcan Hnull1.
  destruct (xfers s1 !! xfer) as [x1|] eqn:Hx1;
    [|unfold can_unplug in Hcan; rewrite Hx1 in Hcan; discriminate].
  destruct (xfer_unplug_spec _ _ _ Hx1 Hcan) as (s2 & Hun & Hxf & _).
  set (x2 := {| intf := {| dest := null_xfer_addr; refcnt := refcnt (intf x1) |};
                op := op x1 |}) in Hxf.
  assert (Hx2 : xfers s2 !! xfer = Some x2)
    by (rewrite Hxf; apply lookup_insert_eq).
  assert (Hnull2 : xfers s2 !! null_xfer_addr = Some null_xfer).
  { rewrite Hxf. destruct (decide (xfer = null_xfer_addr)) as [->|Hne].
    - rewrite lookup_insert_eq. rewrite Hnull1 in Hx1. injection Hx1 as <-.
      reflexivity.
    - rewrite lookup_insert_ne by exact Hne. exact Hnull1. }
  assert (Hrun : ∀ rc' type args pos len data,
            close xfer rc' s2 = Some (tt, s2)
            ∧ seek xfer pos s2 = Some (0, s2)
            ∧ vredirect xfer type args s2 = Some (0, s2)
            ∧ redirect xfer type args s2 = Some (0, s2)
            ∧ deliver_raw xfer data len s2 = Some (0, s2)).
  { intros. apply (null_dispatch_run xfer s2 x2); [exact Hnull2 | exact Hx2 |].
    reflexivity. }
  exists s2. split.
  { unfold close. step. exact Hun. }
  split; [exact Hnull2|].
  split; [intros rc'; apply (Hrun rc' 0 [] 0%N 0%N (1%positive, 0%N))|].
  split; [intros pos; apply (Hrun 0 0 [] pos 0%N (1%positive, 0%N))|].
  split.
  { intros type args.
    destruct (Hrun 0 type args 0%N 0%N (1%positive, 0%N)) as (_ & _ & Hv & Hr & _).
    split; assumption. }
  split; [intros data len; apply (Hrun 0 0 [] 0%N len data)|].
  intros iobuf. apply (deliver_to_null _ _ _ _ Hnull2 Hx2). reflexivity.
Qed.

(** X2. What [close] itself adds to what the partner's operation did: the
    caller's [dest] becomes the null interface, with the caller's counter
    and table as the partner's operation left them, and one interest is
    released in the handle the caller is plugged into when that operation
    returns; the memory, the I/O buffers, the heap and the trace are as
    the operation left them. *)
Theorem close_footprint
    (xfer : addr) (rc : Z) (s s1 : state) (x d x1 old : xfer_interface) :
  xfers s !! xfer = Some x →
  xfers s !! dest (intf x) = Some d →
  Ops.close (ops (op d)) (dest (intf x)) rc s = Some (tt, s1) →
  xfers s1 !! xfer = Some x1 →
  xfers s1 !! dest (intf x1) = Some old →
  can_unplug xfer s1 = true →
  ∃ s2, close xfer rc s = Some (tt, s2)
    ∧ xfers s2 = <[xfer := {| intf := {| dest := null_xfer_addr;
                                         refcnt := refcnt (intf x1) |};
                              op := op x1 |}]> (xfers s1)
    ∧ (refcnt (intf old) = None → refcnts s2 = refcnts s1)
    ∧ (∀ c, refcnt (intf old) = Some c →
         ∃ n, refcnts s1 !! c = Some n
              ∧ refcnts s2 = <[c := n - 1]> (refcnts s1))
    ∧ memory s2 = memory s1 ∧ iobufs s2 = iobufs s1
    ∧ heap_free s2 = heap_free s1 ∧ trace s2 = trace s1.
Proof.
  intros Hx Hd Hclose Hx1 Hold Hcan.
  apply can_unplug_defined in Hcan as [[[] s2] Hun].
  exists s2. split.
  - unfold close. step. exact Hun.
  - apply (xfer_unplug_effect _ _ _ _ _ Hx1 Hold Hun).
Qed.

(** X3. After [close A], the connection is half open: [A] no longer
    reaches [B], but [B], when its own [close] operation left the handles
    alone, still is plugged into [A], and every call made through [B]
    still is a call of [A]'s own operations. *)
Theorem closed_handle_still_receives
    (A B : addr) (rc : Z) (s s1 : state) (xa xb : xfer_interface) :
  xfers s !! A = Some xa →
  dest (intf xa) = B →
  xfers s !! B = Some xb →
  dest (intf xb) = A →
  A ≠ B →
  Ops.close (ops (op xb)) B rc s = Some (tt, s1) →
  xfers s1 = xfers s →
  can_unplug A s1 = true →
  ∃ s2, close A rc s = Some (tt, s2)
    ∧ xfer_dest A s2 = Some (null_xfer_addr, s2)
    ∧ xfer_dest B s2 = Some (A, s2)
    ∧ ∀ rc' type args pos len iobuf data,
        close B rc' s2 = (Ops.close (ops (op xa)) A rc';; xfer_unplug B) s2
        ∧ seek B pos s2 = Ops.seek (ops (op xa)) A pos s2
        ∧ vredirect B type args s2 = Ops.vredirect (ops (op xa)) A type args s2
        ∧ deliver B iobuf s2 = Ops.deliver (ops (op xa)) A iobuf s2
        ∧ deliver_raw B data len s2 = Ops.deliver_raw (ops (op xa)) A data len s2.
Proof.
  intros Ha HAB Hb HBA Hne Hclose Hsame Hcan. subst B.
  assert (Ha1 : xfers s1 !! A = Some xa) by (rewrite Hsame; exact Ha).
  destruct (xfer_unplug_spec _ _ _ Ha1 Hcan) as (s2 & Hun & Hxf & _).
  set (xa2 := {| intf := {| dest := null_xfer_addr; refcnt := refcnt (intf xa) |};
                 op := op xa |}) in Hxf.
  assert (Ha2 : xfers s2 !! A = Some xa2)
    by (rewrite Hxf; apply lookup_insert_eq).
  assert (Hb2 : xfers s2 !! dest (intf xa) = Some xb).
  { rewrite Hxf, lookup_insert_ne by exact Hne. rewrite Hsame. exact Hb. }
  exists s2. split; [unfold close; step; exact Hun|].
  split; [rewrite xfer_dest_run, Ha2; reflexivity|].
  split; [rewrite xfer_dest_run, Hb2, HBA; reflexivity|].
  intros rc' type args pos len iobuf data.
  assert (Hd2 : xfers s2 !! dest (intf xb) = Some xa2)
    by (rewrite HBA; exact Ha2).
  destruct (dispatch_run (dest (intf xa)) s2 xb xa2 rc' type args pos len
              iobuf data Hb2 Hd2) as (Hc & Hs & Hv & _ & Hdl & Hr).
  rewrite HBA in Hc, Hs, Hv, Hdl, Hr.
  repeat split; assumption.
Qed.

End compositions.

Section adaptors_installed.
Context {image : Image}.

(** X4. [deliver] to a partner that installs [deliver_as_raw] as its
    [deliver] method: the partner's own [deliver_raw] receives the
    buffer's [data] pointer and length, the caller gets the status it
    returned, and the buffer the caller handed over is released whatever
    that status is. *)
Theorem deliver_to_raw_stage
    (xfer iobuf : addr) (s s1 : state) (x d : xfer_interface) (b : io_buffer)
    (rc : Z) :
  xfers s !! xfer = Some x →
  xfers s !! dest (intf x) = Some d →
  Ops.deliver (ops (op d)) (dest (intf x)) iobuf s
  = deliver_as_raw (dest (intf x)) iobuf s →
  iobufs s !! iobuf = Some b →
  Ops.deliver_raw (ops (op d)) (dest (intf x)) (data b) (iob_len b) s
  = Some (rc, s1) →
  can_free iobuf s1 = true →
  ∃ s2, deliver xfer iobuf s = Some (rc, s2)
    ∧ iobufs s2 !! iobuf = None
    ∧ (∀ i, i ≠ iobuf → iobufs s2 !! i = iobufs s1 !! i)
    ∧ xfers s2 = xfers s1 ∧ refcnts s2 = refcnts s1 ∧ trace s2 = trace s1.
Proof.
  intros Hx Hd Hinst Hb Hraw Hfree.
  destruct (free_iob_spec _ _ Hfree) as (s2 & Hrel & Hi & Hxf & Hrc & Htr).
  exists s2. split.
  - destruct (dispatch_run xfer s x d 0 0 [] 0%N 0%N iobuf (1%positive, 0%N)
                Hx Hd) as (_ & _ & _ & _ & -> & _).
    rewrite Hinst, (deliver_as_raw_run _ _ _ _ _ Hd Hb), Hraw, Hrel.
    reflexivity.
  - rewrite Hi. repeat split; try assumption.
    + apply lookup_delete_eq.
    + intros i Hne. apply lookup_delete_ne. congruence.
Qed.

(** X5. [deliver_raw] to a partner that installs [deliver_as_iobuf] as
    its [deliver_raw] method.  When the allocation fails the caller gets
    [-ENOMEM] and the machine is as it was: the partner saw nothing.
    When it succeeds, the partner's own [deliver] is called once, with a
    new buffer that holds a copy of the caller's bytes, and the caller's
    data are still in place and still the caller's. *)
Theorem deliver_raw_to_iobuf_stage
    (xfer : addr) (data : ptr) (len : size_t) (s : state) (x d : xfer_interface) :
  xfers s !! xfer = Some x →
  xfers s !! dest (intf x) = Some d →
  Ops.deliver_raw (ops (op d)) (dest (intf x)) data len s
  = deliver_as_iobuf (dest (intf x)) data len s →
  (∀ s0, alloc_iob len s = Some (None, s0) →
     deliver_raw xfer data len s = Some (- ENOMEM, s))
  ∧ (∀ iobuf s0 bs,
       alloc_iob len s = Some (Some iobuf, s0) →
       load_bytes data len s = Some (bs, s) →
       ∃ s1, iob_bytes iobuf s1 = Some bs
         ∧ load_bytes data len s1 = Some (bs, s1)
         ∧ iobufs s !! iobuf = None
         ∧ (∀ i, i ≠ iobuf → iobufs s1 !! i = iobufs s !! i)
         ∧ xfers s1 = xfers s ∧ refcnts s1 = refcnts s ∧ trace s1 = trace s
         ∧ deliver_raw xfer data len s
           = Ops.deliver (ops (op d)) (dest (intf x)) iobuf s1).
Proof.
  intros Hx Hd Hinst.
  destruct (dispatch_run xfer s x d 0 0 [] 0%N len 1%positive data Hx Hd)
    as (_ & _ & _ & _ & _ & Hraw).
  rewrite Hinst in Hraw. split.
  - intros s0 Halloc. rewrite Hraw, deliver_as_iobuf_run, Halloc.
    apply alloc_iob_run in Halloc as [_ ->]. reflexivity.
  - intros iobuf s0 bs Halloc Hload.
    destruct (iob_fill_spec _ _ _ _ _ _ Halloc Hload)
      as (s1 & Hfill & Hmem & Hiob & Hxf & Hrc & Htr).
    pose proof (load_bytes_length _ _ _ _ _ Hload) as (Hlen & _ & [blk Hblk]).
    pose proof (alloc_iob_run _ _ _ _ Halloc) as (_ & Hfresh & _).
    assert (Hne : data.1 ≠ iobuf).
    { intros Heq. rewrite Heq, Hfresh, fresh_block_memory in Hblk. discriminate. }
    exists s1. split; [|split; [|split; [|split]]].
    + unfold iob_bytes. rewrite deref_iob_run, Hiob, lookup_insert_eq.
      rewrite load_bytes_run, Hmem. unfold iob_len. simpl.
      rewrite lookup_insert_eq, N.sub_0_r.
      rewrite decide_True by (rewrite Hlen; reflexivity).
      change (N.to_nat 0) with 0%nat.
      rewrite drop_0, take_ge by (rewrite Hlen; reflexivity). reflexivity.
    + rewrite load_bytes_run in Hload |- *.
      rewrite Hmem, lookup_insert_ne by congruence.
      destruct (memory s !! data.1) as [blk'|]; [|discriminate].
      destruct (decide _); [|discriminate].
      injection Hload as ->. reflexivity.
    + rewrite Hfresh. apply fresh_block_iobufs.
    + intros i Hi. rewrite Hiob. apply lookup_insert_ne. congruence.
    + repeat split; try assumption.
      rewrite Hraw, deliver_as_iobuf_run, Halloc, Hfill, Hxf, Hd. reflexivity.
Qed.

(** X6. The two adaptors undo each other.  On a handle whose [deliver]
    method is [deliver_as_raw], [deliver_as_iobuf] hands the handle's own
    [deliver_raw] a copy of the caller's bytes and returns its status; the
    buffer made for the copy is released again, so that, when
    [deliver_raw] itself leaves memory and buffers alone, the memory, the
    I/O buffers and the heap are exactly what they were before the call:
    nothing leaks. *)
Theorem adaptors_round_trip
    (xfer : addr) (data : ptr) (len : size_t) (s s0 s1 s2 : state)
    (x : xfer_interface) (iobuf : addr) (bs : list Byte.byte) (rc : Z) :
  xfers s !! xfer = Some x →
  alloc_iob len s = Some (Some iobuf, s0) →
  load_bytes data len s = Some (bs, s) →
  iob_fill iobuf data len s0 = Some (tt, s1) →
  Ops.deliver (ops (op x)) xfer iobuf s1 = deliver_as_raw xfer iobuf s1 →
  Ops.deliver_raw (ops (op x)) xfer (iobuf, 0%N) len s1 = Some (rc, s2) →
  memory s2 = memory s1 →
  iobufs s2 = iobufs s1 →
  heap_free s2 = heap_free s1 →
  load_bytes (iobuf, 0%N) len s1 = Some (bs, s1)
  ∧ ∃ s3, deliver_as_iobuf xfer data len s = Some (rc, s3)
      ∧ memory s3 = memory s ∧ iobufs s3 = iobufs s
      ∧ heap_free s3 = heap_free s
      ∧ xfers s3 = xfers s2 ∧ refcnts s3 = refcnts s2 ∧ trace s3 = trace s2.
Proof.
  intros Hx Halloc Hload Hfill Hinst Hraw Hmem2 Hiob2 Hheap2.
  destruct (iob_fill_spec _ _ _ _ _ _ Halloc Hload)
    as (s1' & Hfill' & Hmem & Hiob & Hxf & _).
  rewrite Hfill in Hfill'. injection Hfill' as <-.
  destruct (iob_fill_rest _ _ _ _ _ Hfill) as (_ & Hheap1 & _).
  pose proof (load_bytes_length _ _ _ _ _ Hload) as (Hlen & _ & _).
  pose proof (alloc_iob_run _ _ _ _ Halloc) as (Hle & Hfresh & Hs0).
  assert (Hheap0 : heap_free s0 = (heap_free s - len)%N)
    by (rewrite Hs0; reflexivity).
  assert (Hread : load_bytes (iobuf, 0%N) len s1 = Some (bs, s1)).
  { rewrite load_bytes_run, Hmem. simpl. rewrite lookup_insert_eq.
    rewrite decide_True by (rewrite Hlen; reflexivity).
    change (N.to_nat 0) with 0%nat.
    rewrite drop_0, take_ge by (rewrite Hlen; reflexivity). reflexivity. }
  split; [exact Hread|].
  assert (Hx1 : xfers s1 !! xfer = Some x) by (rewrite Hxf; exact Hx).
  assert (Hb1 : iobufs s1 !! iobuf
                = Some {| head := (iobuf, 0%N); data := (iobuf, 0%N);
                          tail := (iobuf, len); end_ := (iobuf, len) |})
    by (rewrite Hiob; apply lookup_insert_eq).
  eexists. split.
  - rewrite deliver_as_iobuf_run, Halloc, Hfill, Hx1, Hinst.
    rewrite (deliver_as_raw_run _ _ _ _ _ Hx1 Hb1).
    unfold iob_len. simpl. rewrite N.sub_0_r, Hraw.
    rewrite free_iob_run, Hiob2, Hb1. simpl.
    rewrite Hmem2, Hmem, lookup_insert_eq. reflexivity.
  - simpl. rewrite Hmem2, Hiob2, Hheap2, Hheap1, Hheap0, Hmem, Hiob.
    repeat split.
    + apply delete_insert_id. rewrite Hfresh. apply fresh_block_memory.
    + apply delete_insert_id. rewrite Hfresh. apply fresh_block_iobufs.
    + rewrite Hlen, N2Nat.id. clear -Hle. unfold size_t in *. lia.
Qed.

End adaptors_installed.

Section teardown.
Context {image : Image}.

(** X7. [null_xfer_ops] absorbs for whichever handle uses it: when the
    partner's table is [null_xfer_ops], whether or not the partner is the
    null interface, [seek], [vredirect], [redirect] and [deliver_raw]
    through the handle return success and change nothing, [deliver]
    releases the buffer and returns success, and [close] is the unplugging
    of the caller and no more. *)
Theorem null_xfer_ops_absorb
    (xfer : addr) (s : state) (x d : xfer_interface)
    (rc type : Z) (args : va_list) (pos len : size_t) (iobuf : addr) (data : ptr) :
  xfers s !! xfer = Some x →
  xfers s !! dest (intf x) = Some d →
  op d = null_xfer_ops_addr →
  close xfer rc s = xfer_unplug xfer s
  ∧ seek xfer pos s = Some (0, s)
  ∧ vredirect xfer type args s = Some (0, s)
  ∧ redirect xfer type args s = Some (0, s)
  ∧ deliver_raw xfer data len s = Some (0, s)
  ∧ deliver xfer iobuf s = (free_iob iobuf;; mret 0) s
  ∧ (can_free iobuf s = true →
     ∃ s', deliver xfer iobuf s = Some (0, s')
       ∧ iobufs s' = delete iobuf (iobufs s) ∧ xfers s' = xfers s).
Proof.
  intros Hx Hd Hop.
  destruct (dispatch_run xfer s x d rc type args pos len iobuf data Hx Hd)
    as (Hclose & Hseek & Hvred & Hred & Hdel & Hraw).
  rewrite Hop in Hclose, Hseek, Hvred, Hred, Hdel, Hraw. simpl in *.
  assert (Hdeliver : deliver xfer iobuf s = (free_iob iobuf;; mret 0) s).
  { rewrite Hdel. unfold deliver_as_raw. step. rewrite Hop.
    rewrite (free_iob_run iobuf s).
    destruct (iobufs s !! iobuf) as [b|] eqn:Hb; [|reflexivity].
    simpl. rewrite !bind_run. simpl.
    rewrite bind_run, free_iob_run, Hb. reflexivity. }
  split; [rewrite Hclose; reflexivity|].
  repeat (split; [assumption|]).
  intros Hfree. rewrite Hdeliver, bind_run.
  destruct (free_iob_spec _ _ Hfree) as (s' & -> & Hi & Hxf & _).
  exists s'. repeat split; assumption.
Qed.

(** X8. Tearing a connection down from both ends.  When [A] and [B] are
    plugged into each other and their own [close] operations leave the
    handles and the counters alone, [close A] followed by [close B]
    returns, leaves both handles plugged into the null interface, and
    releases each end's interest in the other exactly once. *)
Theorem close_both_ends
    (A B : addr) (rcA rcB : Z) (s : state) (xa xb : xfer_interface)
    (ca cb : addr) (na nb : Z) :
  xfers s !! A = Some xa →
  dest (intf xa) = B →
  xfers s !! B = Some xb →
  dest (intf xb) = A →
  A ≠ B →
  refcnt (intf xa) = Some ca →
  refcnt (intf xb) = Some cb →
  ca ≠ cb →
  refcnts s !! ca = Some na →
  refcnts s !! cb = Some nb →
  (∀ s', ∃ s'', Ops.close (ops (op xb)) B rcA s' = Some (tt, s'')
                ∧ xfers s'' = xfers s' ∧ refcnts s'' = refcnts s') →
  (∀ s', ∃ s'', Ops.close (ops (op xa)) A rcB s' = Some (tt, s'')
                ∧ xfers s'' = xfers s' ∧ refcnts s'' = refcnts s') →
  ∃ s4, (close A rcA;; close B rcB) s = Some (tt, s4)
    ∧ xfer_dest A s4 = Some (null_xfer_addr, s4)
    ∧ xfer_dest B s4 = Some (null_xfer_addr, s4)
    ∧ refcnts s4 !! ca = Some (na - 1)
    ∧ refcnts s4 !! cb = Some (nb - 1).
Proof.
  intros Ha HAB Hb HBA Hne Hca Hcb Hcne Hna Hnb Hopb Hopa.
  (* close A *)
  destruct (Hopb s) as (s1 & Hrun1 & Hxf1 & Hrc1).
  assert (Ha1 : xfers s1 !! A = Some xa) by (rewrite Hxf1; exact Ha).
  assert (Hb1 : xfers s1 !! dest (intf xa) = Some xb)
    by (rewrite Hxf1, HAB; exact Hb).
  assert (Hcan1 : can_unplug A s1 = true).
  { unfold can_unplug. rewrite Ha1, Hb1, Hcb. apply bool_decide_eq_true.
    rewrite Hrc1, Hnb. eauto. }
  apply can_unplug_defined in Hcan1 as [[[] s2] Hun1].
  destruct (xfer_unplug_effect _ _ _ _ _ Ha1 Hb1 Hun1)
    as (Hxf2 & _ & Hput2 & _).
  destruct (Hput2 cb Hcb) as (n & Hn & Hrc2).
  rewrite Hrc1, Hnb in Hn. injection Hn as <-. rewrite Hrc1 in Hrc2.
  set (xa2 := {| intf := {| dest := null_xfer_addr; refcnt := refcnt (intf xa) |};
                 op := op xa |}) in Hxf2.
  assert (Ha2 : xfers s2 !! A = Some xa2)
    by (rewrite Hxf2; apply lookup_insert_eq).
  assert (Hb2 : xfers s2 !! B = Some xb).
  { rewrite Hxf2, lookup_insert_ne by exact Hne. rewrite Hxf1. exact Hb. }
  (* close B *)
  destruct (Hopa s2) as (s3 & Hrun3 & Hxf3 & Hrc3).
  assert (Hb3 : xfers s3 !! B = Some xb) by (rewrite Hxf3; exact Hb2).
  assert (Ha3 : xfers s3 !! dest (intf xb) = Some xa2)
    by (rewrite Hxf3, HBA; exact Ha2).
  assert (Hna3 : refcnts s3 !! ca = Some na).
  { rewrite Hrc3, Hrc2, lookup_insert_ne by congruence. exact Hna. }
  assert (Hcan3 : can_unplug B s3 = true).
  { unfold can_unplug. rewrite Hb3, Ha3. simpl. rewrite Hca.
    apply bool_decide_eq_true. rewrite Hna3. eauto. }
  apply can_unplug_defined in Hcan3 as [[[] s4] Hun3].
  destruct (xfer_unplug_effect _ _ _ _ _ Hb3 Ha3 Hun3)
    as (Hxf4 & _ & Hput4 & _).
  destruct (Hput4 ca Hca) as (n & Hn & Hrc4).
  rewrite Hna3 in Hn. injection Hn as <-.
  exists s4. split; [|split; [|split; [|split]]].
  - assert (Hb0 : xfers s !! dest (intf xa) = Some xb)
      by (rewrite HAB; exact Hb).
    assert (Ha2' : xfers s2 !! dest (intf xb) = Some xa2)
      by (rewrite HBA; exact Ha2).
    destruct (dispatch_run A s xa xb rcA 0 [] 0%N 0%N 1%positive
                (1%positive, 0%N) Ha Hb0) as (HcA & _).
    destruct (dispatch_run B s2 xb xa2 rcB 0 [] 0%N 0%N 1%positive
                (1%positive, 0%N) Hb2 Ha2') as (HcB & _).
    rewrite bind_run, HcA, bind_run, HAB, Hrun1, Hun1.
    rewrite HcB, bind_run, HBA. simpl. rewrite Hrun3. exact Hun3.
  - rewrite xfer_dest_run, Hxf4, lookup_insert_ne by congruence.
    rewrite Hxf3, Ha2. reflexivity.
  - rewrite xfer_dest_run, Hxf4, lookup_insert_eq. reflexivity.
  - rewrite Hrc4. apply lookup_insert_eq.
  - rewrite Hrc4, lookup_insert_ne by exact Hcne.
    rewrite Hrc3, Hrc2. apply lookup_insert_eq.
Qed.

End teardown.

(** ** The further properties at work *)

(** X1 at [hA]: closed once, [hA] absorbs a second close and a seek. *)
Lemma closed_handle_is_absorbing_witness :
  let xA := {| intf := {| dest := hB; refcnt := Some 10%positive |};
               op := stage_ops_addr 2 |} in
  let xB := {| intf := {| dest := hA; refcnt := Some 11%positive |};
               op := stage_ops_addr 1 |} in
  let s1 := set_trace (λ t, t ++ [ev_close hB (-104)]) demo_state in
  (xfers demo_state !! hA = Some xA
   ∧ xfers demo_state !! hB = Some xB
   ∧ rec_close hB (-104) demo_state = Some (tt, s1)
   ∧ can_unplug hA s1 = true
   ∧ xfers s1 !! null_xfer_addr = Some null_xfer)
  ∧ ∃ s2, close (image := demo_image) hA (-104) demo_state = Some (tt, s2)
      ∧ close (image := demo_image) hA (-5) s2 = Some (tt, s2)
      ∧ seek (image := demo_image) hA 100%N s2 = Some (0, s2)
      ∧ trace s2 = [ev_close hB (-104)]
      ∧ refcnts s2 !! 11%positive = Some 0.
Proof.
  intros xA xB s1. split; [repeat split|].
  destruct (closed_handle_is_absorbing (image := demo_image)
              hA (-104) demo_state s1 xA xB)
    as (s2 & Hclose & _ & Hagain & Hseek & _);
    [reflexivity | reflexivity | reflexivity | reflexivity | reflexivity |].
  exists s2. split; [exact Hclose|]. split; [apply Hagain|].
  split; [apply Hseek|].
  revert Hclose. vm_compute. intros [= <-]. split; reflexivity.
Defined.

(** X2 at [hA]: the close releases one interest in [hB], whose counter
    goes from 1 to 0. *)
Lemma close_footprint_witness :
  let xA := {| intf := {| dest := hB; refcnt := Some 10%positive |};
               op := stage_ops_addr 2 |} in
  let xB := {| intf := {| dest := hA; refcnt := Some 11%positive |};
               op := stage_ops_addr 1 |} in
  let s1 := set_trace (λ t, t ++ [ev_close hB (-104)]) demo_state in
  (xfers demo_state !! hA = Some xA
   ∧ xfers demo_state !! hB = Some xB
   ∧ rec_close hB (-104) demo_state = Some (tt, s1)
   ∧ xfers s1 !! hA = Some xA
   ∧ xfers s1 !! hB = Some xB
   ∧ can_unplug hA s1 = true)
  ∧ ∃ s2, close (image := demo_image) hA (-104) demo_state = Some (tt, s2)
      ∧ refcnts s2 = <[11%positive := 0]> (refcnts s1)
      ∧ memory s2 = memory s1 ∧ iobufs s2 = iobufs s1
      ∧ heap_free s2 = heap_free s1 ∧ trace s2 = trace s1.
Proof.
  intros xA xB s1. split; [repeat split|].
  destruct (close_footprint (image := demo_image)
              hA (-104) demo_state s1 xA xB xA xB)
    as (s2 & Hclose & _ & _ & Hcnt & Hrest);
    [reflexivity | reflexivity | reflexivity | reflexivity | reflexivity
    | reflexivity |].
  exists s2. split; [exact Hclose|]. split; [|exact Hrest].
  destruct (Hcnt 11%positive eq_refl) as (n & Hn & ->).
  vm_compute in Hn. injection Hn as <-. reflexivity.
Defined.

(** X3 at [hA] and [hB]: after [close hA], a seek through [hB] still is
    [hA]'s own seek operation. *)
Lemma closed_handle_still_receives_witness :
  let xA := {| intf := {| dest := hB; refcnt := Some 10%positive |};
               op := stage_ops_addr 2 |} in
  let xB := {| intf := {| dest := hA; refcnt := Some 11%positive |};
               op := stage_ops_addr 1 |} in
  let s1 := set_trace (λ t, t ++ [ev_close hB (-104)]) demo_state in
  (xfers demo_state !! hA = Some xA ∧ dest (intf xA) = hB
   ∧ xfers demo_state !! hB = Some xB ∧ dest (intf xB) = hA
   ∧ hA ≠ hB
   ∧ rec_close hB (-104) demo_state = Some (tt, s1)
   ∧ xfers s1 = xfers demo_state
   ∧ can_unplug hA s1 = true)
  ∧ ∃ s2, close (image := demo_image) hA (-104) demo_state = Some (tt, s2)
      ∧ xfer_dest hA s2 = Some (null_xfer_addr, s2)
      ∧ xfer_dest hB s2 = Some (hA, s2)
      ∧ seek (image := demo_image) hB 7%N s2 = Ops.seek hangup_ops hA 7%N s2.
Proof.
  intros xA xB s1. split; [repeat split; discriminate|].
  destruct (closed_handle_still_receives (image := demo_image)
              hA hB (-104) demo_state s1 xA xB)
    as (s2 & Hclose & HA & HB & Hcalls);
    [reflexivity | reflexivity | reflexivity | reflexivity | discriminate
    | reflexivity | reflexivity | reflexivity |].
  exists s2. repeat (split; [assumption|]).
  apply (Hcalls 0 0 [] 7%N 0%N 1%positive (1%positive, 0%N)).
Defined.

(** X4 at [hP], plugged into the raw-data stage [hR]: [hR]'s own
    [deliver_raw] sees [hello] and fails with -5, the caller gets -5, and
    the buffer is gone. *)
Lemma deliver_to_raw_stage_witness :
  let xP := {| intf := {| dest := hR; refcnt := None |}; op := stage_ops_addr 1 |} in
  let xR := {| intf := {| dest := hP; refcnt := None |}; op := stage_ops_addr 3 |} in
  let b := {| head := (21%positive, 0%N); data := (21%positive, 4%N);
              tail := (21%positive, 9%N); end_ := (21%positive, 12%N) |} in
  let s := adaptor_state in
  let s1 := set_trace (λ t, t ++ [ev_deliver_raw hR hello 5%N]) s in
  (xfers s !! hP = Some xP
   ∧ xfers s !! hR = Some xR
   ∧ Ops.deliver (ops (image := adaptor_image) (op xR)) hR 21%positive s
     = deliver_as_raw (image := adaptor_image) hR 21%positive s
   ∧ iobufs s !! 21%positive = Some b
   ∧ rec_deliver_raw hR (data b) (iob_len b) s = Some (-5, s1)
   ∧ can_free 21%positive s1 = true)
  ∧ ∃ s2, deliver (image := adaptor_image) hP 21%positive s = Some (-5, s2)
      ∧ iobufs s2 !! 21%positive = None
      ∧ trace s2 = [ev_deliver_raw hR hello 5%N].
Proof.
  intros xP xR b s s1. split; [repeat split|].
  destruct (deliver_to_raw_stage (image := adaptor_image)
              hP 21%positive s s1 xP xR b (-5))
    as (s2 & Hrun & Hgone & _ & _ & _ & Htr);
    [reflexivity | reflexivity | reflexivity | reflexivity | reflexivity
    | reflexivity |].
  exists s2. repeat split; assumption.
Defined.

(** X5 at [hQ], plugged into the I/O buffer stage [hI]: with the heap
    exhausted the caller gets [-ENOMEM] and nothing has changed; with room
    on the heap [hI]'s own [deliver] receives a new buffer holding
    [hello]. *)
Lemma deliver_raw_to_iobuf_stage_witness :
  let xQ := {| intf := {| dest := hI; refcnt := None |}; op := stage_ops_addr 1 |} in
  let xI := {| intf := {| dest := hQ; refcnt := None |}; op := stage_ops_addr 4 |} in
  let raw : ptr := (20%positive, 0%N) in
  ((xfers adaptor_state_full !! hQ = Some xQ
    ∧ xfers adaptor_state_full !! hI = Some xI
    ∧ Ops.deliver_raw (ops (image := adaptor_image) (op xI)) hI raw 5%N
        adaptor_state_full
      = deliver_as_iobuf (image := adaptor_image) hI raw 5%N adaptor_state_full
    ∧ alloc_iob 5%N adaptor_state_full = Some (None, adaptor_state_full))
   ∧ deliver_raw (image := adaptor_image) hQ raw 5%N adaptor_state_full
     = Some (-12, adaptor_state_full))
  ∧ ∃ s0, (xfers adaptor_state !! hQ = Some xQ
           ∧ xfers adaptor_state !! hI = Some xI
           ∧ Ops.deliver_raw (ops (image := adaptor_image) (op xI)) hI raw 5%N
               adaptor_state
             = deliver_as_iobuf (image := adaptor_image) hI raw 5%N adaptor_state
           ∧ alloc_iob 5%N adaptor_state = Some (Some 22%positive, s0)
           ∧ load_bytes raw 5%N adaptor_state = Some (hello, adaptor_state))
      ∧ ∃ s1, iob_bytes 22%positive s1 = Some hello
          ∧ load_bytes raw 5%N s1 = Some (hello, s1)
          ∧ deliver_raw (image := adaptor_image) hQ raw 5%N adaptor_state
            = rec_deliver hI 22%positive s1.
Proof.
  intros xQ xI raw. split.
  - split; [repeat split|].
    apply (proj1 (deliver_raw_to_iobuf_stage (image := adaptor_image)
                    hQ raw 5%N adaptor_state_full xQ xI
                    eq_refl eq_refl eq_refl) adaptor_state_full).
    reflexivity.
  - eexists. split; [repeat split|].
    destruct (proj2 (deliver_raw_to_iobuf_stage (image := adaptor_image)
                       hQ raw 5%N adaptor_state xQ xI
                       eq_refl eq_refl eq_refl) 22%positive _ hello
                eq_refl eq_refl)
      as (s1 & Hbytes & Hraw & _ & _ & _ & _ & _ & Hrun).
    exists s1. repeat split; assumption.
Defined.

(** X6 at the raw-data stage [hR]: [deliver_as_iobuf] on [hR] makes a
    buffer, lets [hR]'s own [deliver_raw] see [hello] in it, and releases
    it; memory, buffers and heap end up as they were. *)
Lemma adaptors_round_trip_witness :
  let xR := {| intf := {| dest := hP; refcnt := None |}; op := stage_ops_addr 3 |} in
  let raw : ptr := (20%positive, 0%N) in
  let new : addr := 22%positive in
  let s := adaptor_state in
  let s0 :=
    set_heap_free (λ n, n - 5)%N
      (set_iobufs <[new := {| head := (new, 0%N); data := (new, 0%N);
                              tail := (new, 0%N); end_ := (new, 5%N) |}]>
         (set_memory <[new := replicate 5 Byte.x00]> s)) in
  let s1 :=
    set_memory <[new := hello]>
      (set_iobufs <[new := {| head := (new, 0%N); data := (new, 0%N);
                              tail := (new, 5%N); end_ := (new, 5%N) |}]> s0) in
  let s2 := set_trace (λ t, t ++ [ev_deliver_raw hR hello 5%N]) s1 in
  (xfers s !! hR = Some xR
   ∧ alloc_iob 5%N s = Some (Some new, s0)
   ∧ load_bytes raw 5%N s = Some (hello, s)
   ∧ iob_fill new raw 5%N s0 = Some (tt, s1)
   ∧ Ops.deliver (ops (image := adaptor_image) (op xR)) hR new s1
     = deliver_as_raw (image := adaptor_image) hR new s1
   ∧ rec_deliver_raw hR (new, 0%N) 5%N s1 = Some (-5, s2)
   ∧ memory s2 = memory s1 ∧ iobufs s2 = iobufs s1
   ∧ heap_free s2 = heap_free s1)
  ∧ ∃ s3, deliver_as_iobuf (image := adaptor_image) hR raw 5%N s = Some (-5, s3)
      ∧ memory s3 = memory s ∧ iobufs s3 = iobufs s
      ∧ heap_free s3 = heap_free s
      ∧ trace s3 = [ev_deliver_raw hR hello 5%N].
Proof.
  intros xR raw new s s0 s1 s2.
  split; [repeat split; vm_compute; reflexivity|].
  destruct (adaptors_round_trip (image := adaptor_image)
              hR raw 5%N s s0 s1 s2 xR new hello (-5))
    as (_ & s3 & Hrun & Hmem & Hiob & Hheap & _ & _ & Htr);
    [ reflexivity | vm_compute; reflexivity | reflexivity
    | vm_compute; reflexivity | vm_compute; reflexivity
    | vm_compute; reflexivity | reflexivity | reflexivity | reflexivity |].
  exists s3. repeat (split; [assumption|]).
  rewrite Htr. reflexivity.
Defined.

(** X7 at [hA], plugged into [hB] after [hB] has switched to
    [null_xfer_ops]: [hB] is not the null interface, and yet a raw
    delivery through [hA] is absorbed and a buffer delivered is released. *)
Lemma null_xfer_ops_absorb_witness :
  let xA := {| intf := {| dest := hB; refcnt := Some 10%positive |};
               op := stage_ops_addr 2 |} in
  let xB := {| intf := {| dest := hA; refcnt := Some 11%positive |};
               op := null_xfer_ops_addr |} in
  let s := nullified_state in
  (xfers s !! hA = Some xA
   ∧ xfers s !! hB = Some xB
   ∧ op xB = null_xfer_ops_addr
   ∧ hB ≠ null_xfer_addr
   ∧ can_free 21%positive s = true)
  ∧ seek (image := demo_image) hA 100%N s = Some (0, s)
  ∧ deliver_raw (image := demo_image) hA (20%positive, 0%N) 5%N s = Some (0, s)
  ∧ close (image := demo_image) hA (-104) s = xfer_unplug hA s
  ∧ ∃ s', deliver (image := demo_image) hA 21%positive s = Some (0, s')
      ∧ iobufs s' !! 21%positive = None.
Proof.
  intros xA xB s. split; [repeat split; discriminate|].
  destruct (null_xfer_ops_absorb (image := demo_image) hA s xA xB
              (-104) 3 [1; 2] 100%N 5%N 21%positive (20%positive, 0%N))
    as (Hclose & Hseek & _ & _ & Hraw & _ & Hdel);
    [reflexivity | reflexivity | reflexivity |].
  repeat (split; [assumption|]).
  destruct Hdel as (s' & Hdel & Hiob & _); [reflexivity|].
  exists s'. split; [exact Hdel|]. rewrite Hiob. apply lookup_delete_eq.
Defined.

(** X8 at the two recording stages [hA] and [hB]: both are notified,
    both end up unplugged, and both counters go from 1 to 0. *)
Lemma close_both_ends_witness :
  let xA := {| intf := {| dest := hB; refcnt := Some 10%positive |};
               op := stage_ops_addr 1 |} in
  let xB := {| intf := {| dest := hA; refcnt := Some 11%positive |};
               op := stage_ops_addr 1 |} in
  let s := duplex_state in
  (xfers s !! hA = Some xA ∧ dest (intf xA) = hB
   ∧ xfers s !! hB = Some xB ∧ dest (intf xB) = hA
   ∧ hA ≠ hB
   ∧ refcnts s !! 10%positive = Some 1
   ∧ refcnts s !! 11%positive = Some 1
   ∧ (∀ s', ∃ s'', rec_close hB (-104) s' = Some (tt, s'')
                   ∧ xfers s'' = xfers s' ∧ refcnts s'' = refcnts s')
   ∧ (∀ s', ∃ s'', rec_close hA (-5) s' = Some (tt, s'')
                   ∧ xfers s'' = xfers s' ∧ refcnts s'' = refcnts s'))
  ∧ ∃ s4, (close (image := demo_image) hA (-104);;
           close (image := demo_image) hB (-5)) s = Some (tt, s4)
      ∧ xfer_dest hA s4 = Some (null_xfer_addr, s4)
      ∧ xfer_dest hB s4 = Some (null_xfer_addr, s4)
      ∧ refcnts s4 !! 10%positive = Some 0
      ∧ refcnts s4 !! 11%positive = Some 0
      ∧ trace s4 = [ev_close hB (-104); ev_close hA (-5)].
Proof.
  intros xA xB s.
  assert (Hrec : ∀ h rc s', ∃ s'', rec_close h rc s' = Some (tt, s'')
                            ∧ xfers s'' = xfers s' ∧ refcnts s'' = refcnts s')
    by (intros h rc s'; eexists; repeat split).
  split; [repeat split; try discriminate; apply Hrec|].
  destruct (close_both_ends (image := demo_image)
              hA hB (-104) (-5) s xA xB 10%positive 11%positive 1 1)
    as (s4 & Hrun & HA & HB & Hca & Hcb);
    [reflexivity | reflexivity | reflexivity | reflexivity | discriminate
    | reflexivity | reflexivity | discriminate | reflexivity | reflexivity
    | apply Hrec | apply Hrec |].
  exists s4. repeat (split; [assumption|]).
  revert Hrun. vm_compute. intros [= <-]. reflexivity.
Defined.
